(** * AlarmMitra reminder bot: a shallow embedding of [reminder_bot1.py]

    The development follows the layout of the source file: the Python
    string and regular-expression primitives the bot relies on, the
    [datetime] values it computes with, the SQLite table [reminders], the
    extraction chain [parse_reminder], the chat handlers and the periodic
    job [check_reminders].

    Texts are values of [string]: sequences of code points below 256
    (U+0000 to U+00FF).  On that range Python's [str.lower],
    [str.isspace] and the regular expression classes used by the bot are
    the functions written below.  A text with a character from U+0100 on
    is outside the development; in particular [re.IGNORECASE] lets
    U+017F stand for the letter s and U+0131, U+0130 for the letter i of
    the pattern, and nothing below speaks of a text in which they occur.
    Outgoing chat texts contain characters outside that range and are
    kept as the templates of the source (type [outgoing]). *)

From Stdlib Require Import ZArith Lia List Bool Ascii String Sorted.
Import ListNotations.
Local Open Scope string_scope.
Local Open Scope Z_scope.

(** ** Exceptions and results *)

Inductive exn : Type :=
| ValueError        (* int() on too long a literal, GPT date not parsed *)
| OverflowError     (* timedelta or datetime out of range, id beyond 64 bits *)
| ServiceError      (* anything raised while calling or decoding the GPT answer *)
| TelegramError     (* send_message failed *)
| SqliteFull.       (* no rowid left for an AUTOINCREMENT insert *)

Inductive result (A : Type) : Type :=
| Return (a : A)
| Raise (e : exn).
Arguments Return {A} a.
Arguments Raise {A} e.

(** ** Python [str] operations *)

Module PyStr.

(** [str.isspace] on one character. *)
Definition isspace (c : ascii) : bool :=
  let n := N_of_ascii c in
  ((9 <=? n) && (n <=? 13) || (28 <=? n) && (n <=? 32)
   || (n =? 133) || (n =? 160))%N.

(** The class [\d]. *)
Definition isdigit (c : ascii) : bool :=
  let n := N_of_ascii c in ((48 <=? n) && (n <=? 57))%N.

Definition lower_char (c : ascii) : ascii :=
  let n := N_of_ascii c in
  if ((65 <=? n) && (n <=? 90)
      || (192 <=? n) && (n <=? 222) && negb (n =? 215))%N
  then ascii_of_N (n + 32) else c.

(** [s.lower()] *)
Fixpoint lower (s : string) : string :=
  match s with
  | EmptyString => EmptyString
  | String c s' => String (lower_char c) (lower s')
  end.

(** [s[n:]] *)
Fixpoint drop (n : nat) (s : string) : string :=
  match n, s with
  | O, _ => s
  | S _, EmptyString => EmptyString
  | S n', String _ s' => drop n' s'
  end.

(** [sub in s] *)
Fixpoint contains (sub s : string) : bool :=
  prefix sub s
  || match s with
     | EmptyString => false
     | String _ s' => contains sub s'
     end.

(** [s.partition(sep)] when [sep] occurs in [s]: the text before the
    first occurrence and the text after it. *)
Fixpoint partition (sep s : string) : option (string * string) :=
  if prefix sep s then Some (EmptyString, drop (String.length sep) s)
  else match s with
       | EmptyString => None
       | String c s' =>
           match partition sep s' with
           | Some (a, b) => Some (String c a, b)
           | None => None
           end
       end.

(** [s.split(sep, 1)] *)
Definition split1 (sep s : string) : list string :=
  match partition sep s with
  | Some (a, b) => [a; b]
  | None => [s]
  end.

(** [l[-1]] on a list of strings. *)
Definition last_item (l : list string) : string := List.last l EmptyString.

Fixpoint lstrip (s : string) : string :=
  match s with
  | EmptyString => EmptyString
  | String c s' => if isspace c then lstrip s' else s
  end.

Fixpoint rstrip (s : string) : string :=
  match s with
  | EmptyString => EmptyString
  | String c s' =>
      match rstrip s' with
      | EmptyString => if isspace c then EmptyString else String c EmptyString
      | r => String c r
      end
  end.

(** [s.strip()] *)
Definition strip (s : string) : string := rstrip (lstrip s).

Fixpoint all_digits (s : string) : bool :=
  match s with
  | EmptyString => true
  | String c s' => isdigit c && all_digits s'
  end.

Definition digit_value (c : ascii) : Z := Z.of_N (N_of_ascii c) - 48.

Fixpoint int_acc (acc : Z) (s : string) : Z :=
  match s with
  | EmptyString => acc
  | String c s' => int_acc (10 * acc + digit_value c) s'
  end.

(** The default of [sys.get_int_max_str_digits()]. *)
Definition int_max_str_digits : nat := 4300.

(** [int(s)] on the texts the bot passes to it, runs of digits; any
    other text is refused here. *)
Definition int (s : string) : result Z :=
  match s with
  | EmptyString => Raise ValueError
  | _ =>
      if negb (all_digits s) then Raise ValueError
      else if Nat.ltb int_max_str_digits (String.length s) then Raise ValueError
      else Return (int_acc 0 s)
  end.

End PyStr.

(** ** The regular expression of the fallback

    [re.search(r'in (\d+) (second|seconds|minute|minutes|hour|hours)',
    text, re.IGNORECASE)].  The pattern is a sequence of literals, one
    greedy digit run and one ordered alternation; a greedy digit run
    followed by a literal space never succeeds after giving a digit
    back, so the matcher below needs no backtracking into the run.

    On texts of code points below 256 a pattern letter matches its
    lower-case and its upper-case form and nothing else, and [\d] matches
    the ten ASCII digits; that is the matcher written here. *)

Module Re.

(** A literal of lower-case pattern characters, matched ignoring case
    at the head of [s]: the matched text and what follows it. *)
Fixpoint literal (p s : string) : option (string * string) :=
  match p with
  | EmptyString => Some (EmptyString, s)
  | String a p' =>
      match s with
      | EmptyString => None
      | String c s' =>
          if Ascii.eqb (PyStr.lower_char c) a then
            match literal p' s' with
            | Some (m, r) => Some (String c m, r)
            | None => None
            end
          else None
      end
  end.

(** The longest run of digits at the head of [s], and what follows. *)
Fixpoint digits (s : string) : string * string :=
  match s with
  | EmptyString => (EmptyString, EmptyString)
  | String c s' =>
      if PyStr.isdigit c then
        let (d, r) := digits s' in (String c d, r)
      else (EmptyString, s)
  end.

(** Alternatives are tried from left to right. *)
Fixpoint alternation (alts : list string) (s : string)
  : option (string * string) :=
  match alts with
  | [] => None
  | p :: ps =>
      match literal p s with
      | Some r => Some r
      | None => alternation ps s
      end
  end.

Definition units : list string :=
  ["second"; "seconds"; "minute"; "minutes"; "hour"; "hours"].

(** A match beginning at the first character of [s]: groups 1 and 2. *)
Definition match_at (s : string) : option (string * string) :=
  match literal "in " s with
  | None => None
  | Some (_, s1) =>
      match digits s1 with
      | (EmptyString, _) => None
      | (g1, s2) =>
          match literal " " s2 with
          | None => None
          | Some (_, s3) =>
              match alternation units s3 with
              | Some (g2, _) => Some (g1, g2)
              | None => None
              end
          end
      end
  end.

(** [re.search]: the leftmost position at which the pattern matches. *)
Fixpoint search (s : string) : option (string * string) :=
  match match_at s with
  | Some g => Some g
  | None =>
      match s with
      | EmptyString => None
      | String _ s' => search s'
      end
  end.

End Re.

(** ** [datetime] and [timedelta]

    Naive local date-times as CPython keeps them: the seven calendar
    fields.  The ordinal conversions and the addition follow
    [Lib/_pydatetime.py]. *)

Module DateTime.

Record datetime : Type := mkdatetime {
  year : Z; month : Z; day : Z;
  hour : Z; minute : Z; second : Z; microsecond : Z }.

Record timedelta : Type := mktimedelta {
  days : Z; seconds : Z; microseconds : Z }.

Definition MAXORDINAL : Z := 3652059.
Definition DI400Y : Z := 146097.
Definition DI100Y : Z := 36524.
Definition DI4Y : Z := 1461.

Definition is_leap (y : Z) : bool :=
  (y mod 4 =? 0) && (negb (y mod 100 =? 0) || (y mod 400 =? 0)).

Definition DAYS_IN_MONTH : list Z :=
  [-1; 31; 28; 31; 30; 31; 30; 31; 31; 30; 31; 30; 31].
Definition DAYS_BEFORE_MONTH : list Z :=
  [-1; 0; 31; 59; 90; 120; 151; 181; 212; 243; 273; 304; 334].

Definition item (l : list Z) (i : Z) : Z := nth (Z.to_nat i) l 0.

Definition days_in_month (y m : Z) : Z :=
  if (m =? 2) && is_leap y then 29 else item DAYS_IN_MONTH m.

Definition days_before_year (y : Z) : Z :=
  let y := y - 1 in y * 365 + y / 4 - y / 100 + y / 400.

Definition days_before_month (y m : Z) : Z :=
  item DAYS_BEFORE_MONTH m + (if (2 <? m) && is_leap y then 1 else 0).

Definition ymd2ord (y m d : Z) : Z :=
  days_before_year y + days_before_month y m + d.

Definition ord2ymd (n : Z) : Z * Z * Z :=
  let n := n - 1 in
  let n400 := n / DI400Y in
  let n := n mod DI400Y in
  let y := n400 * 400 + 1 in
  let n100 := n / DI100Y in
  let n := n mod DI100Y in
  let n4 := n / DI4Y in
  let n := n mod DI4Y in
  let n1 := n / 365 in
  let n := n mod 365 in
  let y := y + n100 * 100 + n4 * 4 + n1 in
  if (n1 =? 4) || (n100 =? 4) then (y - 1, 12, 31)
  else
    let leapyear := (n1 =? 3) && (negb (n4 =? 24) || (n100 =? 3)) in
    let m := Z.shiftr (n + 50) 5 in
    let preceding :=
      item DAYS_BEFORE_MONTH m + (if (2 <? m) && leapyear then 1 else 0) in
    if n <? preceding then
      let m := m - 1 in
      let preceding :=
        preceding
        - (item DAYS_IN_MONTH m + (if (m =? 2) && leapyear then 1 else 0)) in
      (y, m, n - preceding + 1)
    else (y, m, n - preceding + 1).

(** The invariant of every [datetime] object. *)
Definition valid (d : datetime) : bool :=
  (1 <=? year d) && (year d <=? 9999)
  && (1 <=? month d) && (month d <=? 12)
  && (1 <=? day d) && (day d <=? days_in_month (year d) (month d))
  && (0 <=? hour d) && (hour d <? 24)
  && (0 <=? minute d) && (minute d <? 60)
  && (0 <=? second d) && (second d <? 60)
  && (0 <=? microsecond d) && (microsecond d <? 1000000).

Definition toordinal (d : datetime) : Z :=
  ymd2ord (year d) (month d) (day d).

(** [timedelta(days, seconds, microseconds, minutes=, hours=)] on
    integers: the normalised triple, or [OverflowError]. *)
Definition new_timedelta (d s us mi h : Z) : result timedelta :=
  let s := s + mi * 60 + h * 3600 in
  let s := s + us / 1000000 in
  let us := us mod 1000000 in
  let d := d + s / 86400 in
  let s := s mod 86400 in
  if 999999999 <? Z.abs d then Raise OverflowError
  else Return (mktimedelta d s us).

(** [dt + delta] *)
Definition add (dt : datetime) (other : timedelta) : result datetime :=
  match new_timedelta (toordinal dt) (second dt) (microsecond dt)
                      (minute dt) (hour dt) with
  | Raise e => Raise e
  | Return self =>
      match new_timedelta (days self + days other)
                          (seconds self + seconds other)
                          (microseconds self + microseconds other) 0 0 with
      | Raise e => Raise e
      | Return delta =>
          let h := seconds delta / 3600 in
          let rem := seconds delta mod 3600 in
          let mi := rem / 60 in
          let s := rem mod 60 in
          if (0 <? days delta) && (days delta <=? MAXORDINAL) then
            let '(y, m, d) := ord2ymd (days delta) in
            Return (mkdatetime y m d h mi s (microseconds delta))
          else Raise OverflowError
      end
  end.

Definition lex (c1 c2 : comparison) : comparison :=
  match c1 with Eq => c2 | _ => c1 end.

(** Comparison of two date-times: field by field, most significant
    first. *)
Definition cmp (a b : datetime) : comparison :=
  lex (year a ?= year b)
 (lex (month a ?= month b)
 (lex (day a ?= day b)
 (lex (hour a ?= hour b)
 (lex (minute a ?= minute b)
 (lex (second a ?= second b)
      (microsecond a ?= microsecond b)))))).

(** [a <= b] *)
Definition leb (a b : datetime) : bool :=
  match cmp a b with Gt => false | _ => true end.

(** [dt.replace(microsecond=0)]: the whole second the store keeps. *)
Definition whole_second (d : datetime) : datetime :=
  mkdatetime (year d) (month d) (day d) (hour d) (minute d) (second d) 0.

Definition digit_char (d : Z) : ascii := ascii_of_N (Z.to_N (48 + d)).

Definition pad2 (n : Z) : string :=
  String (digit_char (n / 10)) (String (digit_char (n mod 10)) EmptyString).

Definition pad4 (n : Z) : string :=
  String (digit_char (n / 1000))
    (String (digit_char (n / 100 mod 10)) (pad2 (n mod 100))).

(** [dt.strftime("%Y-%m-%d %H:%M:%S")], with the year on four digits
    as the format is documented.  From year 1000 on every C library
    prints these digits; for an earlier year some print the year without
    its leading zeros, so what is stated below about a row formatted from
    a date of the user's choice takes the year from 1000 on. *)
Definition strftime (d : datetime) : string :=
  pad4 (year d) ++ "-" ++ pad2 (month d) ++ "-" ++ pad2 (day d) ++ " "
  ++ pad2 (hour d) ++ ":" ++ pad2 (minute d) ++ ":" ++ pad2 (second d).

(** Seconds elapsed since 0001-01-01 00:00:00. *)
Definition total_seconds (d : datetime) : Z :=
  (toordinal d - 1) * 86400 + hour d * 3600 + minute d * 60 + second d.

End DateTime.

(** ** The table [reminders]

    [CREATE TABLE reminders (id INTEGER PRIMARY KEY AUTOINCREMENT,
    chat_id TEXT NOT NULL, message TEXT NOT NULL, remind_time TEXT NOT
    NULL)].  Rows are kept in rowid order, the order of a table scan;
    [seq] is the table's entry in [sqlite_sequence]. *)

Module Store.

Record row : Type := mkrow {
  id : Z; chat_id : string; message : string; remind_time : string }.

Record table : Type := mktable { rows : list row; seq : Z }.

Definition max_rowid : Z := 9223372036854775807.

Definition min_rowid : Z := -9223372036854775808.

(** An [int] that [sqlite3] can bind as a parameter: one that fits the
    signed 64-bit INTEGER of SQLite. *)
Definition bindable (i : Z) : bool := (min_rowid <=? i) && (i <=? max_rowid).

Definition empty : table := mktable [] 0.

(** [init_db]: the table is created only when the file has none. *)
Definition init_db (file : option table) : table :=
  match file with
  | Some t => t
  | None => empty
  end.

Definition largest_rowid (rs : list row) : Z :=
  fold_right (fun r m => Z.max (id r) m) 0 rs.

(** The rowid an AUTOINCREMENT insert picks: one more than the largest
    rowid the table ever held. *)
Definition next_rowid (t : table) : result Z :=
  let largest := Z.max (seq t) (largest_rowid (rows t)) in
  if max_rowid <=? largest then Raise SqliteFull
  else Return (largest + 1).

Definition add_reminder (chat message time : string) (t : table)
  : result table :=
  match next_rowid t with
  | Raise e => Raise e
  | Return i =>
      Return (mktable (rows t ++ [mkrow i chat message time])%list i)
  end.

(** The clause [WHERE remind_time <= ?] with the formatted [now]; TEXT
    values compare byte-wise. *)
Definition due (now : DateTime.datetime) (r : row) : bool :=
  String.leb (remind_time r) (DateTime.strftime now).

(** The columns [id, chat_id, message] of a row. *)
Definition selected (r : row) : Z * string * string :=
  (id r, chat_id r, message r).

(** [SELECT id, chat_id, message FROM reminders WHERE remind_time <= ?] *)
Definition get_due_reminders (now : DateTime.datetime) (t : table)
  : list (Z * string * string) :=
  map selected (filter (due now) (rows t)).

(** [DELETE FROM reminders WHERE id = ?] *)
Definition delete_reminder (i : Z) (t : table) : table :=
  mktable (filter (fun r => negb (id r =? i)) (rows t)) (seq t).

End Store.

(** ** The bot *)

(** The texts the bot sends, as templates over the values it fills in. *)
Inductive outgoing : Type :=
| Welcome
| Guidance
| Confirmation (dt : DateTime.datetime) (message : string)
| Notification (message : string).

(** What the handlers can change: the database file, the texts handed to
    Telegram (every attempt, in order) and the texts submitted to GPT. *)
Record world : Type := mkworld {
  db : Store.table;
  outbox : list (string * outgoing);
  gpt_calls : list string }.

(** Computations that update the world and may raise. *)
Definition M (A : Type) : Type := world -> world * result A.

Definition ret {A : Type} (a : A) : M A := fun w => (w, Return a).

Definition raise {A : Type} (e : exn) : M A := fun w => (w, Raise e).

Definition bind {A B : Type} (c : M A) (k : A -> M B) : M B :=
  fun w =>
    match c w with
    | (w', Return a) => k a w'
    | (w', Raise e) => (w', Raise e)
    end.

Definition lift {A : Type} (r : result A) : M A := fun w => (w, r).

(** [try: body except Exception: handler] *)
Definition try_except {A : Type} (body handler : M A) : M A :=
  fun w =>
    match body w with
    | (w', Return a) => (w', Return a)
    | (w', Raise _) => handler w'
    end.

Declare Scope bot_scope.
Delimit Scope bot_scope with bot.
Notation "x <- c ;; k" := (bind c (fun x => k))
  (at level 61, c at next level, right associativity) : bot_scope.
Notation "c ;; k" := (bind c (fun _ => k))
  (at level 61, right associativity) : bot_scope.
Local Open Scope bot_scope.

Section Bot.

(** The GPT call with the decoding of its answer (source lines 72 to
    79 and the two subscripts of [result]): the fields [time] and
    [message], the message being a text or a JSON null ([None]); or no
    answer at all when anything there raises.  An answer whose message
    is of another JSON type (a number, a list) is not covered. *)
Variable gpt : string -> option (string * option string).

(** [dateparser.parse] *)
Variable dateparser_parse : string -> option DateTime.datetime.

(** Whether Telegram accepts a text for a chat, given what was handed
    to it before. *)
Variable telegram : list (string * outgoing) -> string -> outgoing -> bool.

Definition ask_gpt (text : string) : M (string * option string) :=
  fun w =>
    let w' := mkworld (db w) (outbox w) (gpt_calls w ++ [text])%list in
    match gpt text with
    | Some answer => (w', Return answer)
    | None => (w', Raise ServiceError)
    end.

(** [bot.send_message] and [message.reply_text] *)
Definition send_message (chat : string) (text : outgoing) : M unit :=
  fun w =>
    let w' := mkworld (db w) (outbox w ++ [(chat, text)])%list (gpt_calls w) in
    if telegram (outbox w) chat text then (w', Return tt)
    else (w', Raise TelegramError).

Definition add_reminder (chat message time : string) : M unit :=
  fun w =>
    match Store.add_reminder chat message time (db w) with
    | Return t => (mkworld t (outbox w) (gpt_calls w), Return tt)
    | Raise e => (w, Raise e)
    end.

Definition get_due_reminders (now : DateTime.datetime)
  : M (list (Z * string * string)) :=
  fun w => (w, Return (Store.get_due_reminders now (db w))).

(** Binding an id that does not fit 64 bits raises [OverflowError]
    before the statement runs. *)
Definition delete_reminder (i : Z) : M unit :=
  fun w =>
    if Store.bindable i then
      (mkworld (Store.delete_reminder i (db w)) (outbox w) (gpt_calls w),
       Return tt)
    else (w, Raise OverflowError).

(** The body of the [try] of [parse_reminder]. *)
Definition semantic_step (text : string)
  : M (option DateTime.datetime * option string) :=
  answer <- ask_gpt text ;;
  match dateparser_parse (fst answer) with
  | None => raise ValueError
  | Some dt => ret (Some dt, snd answer)
  end.

(** The offset the matched unit selects. *)
Definition offset (now : DateTime.datetime) (unit : string) (value : Z)
  : result DateTime.datetime :=
  if PyStr.contains "second" unit then
    match DateTime.new_timedelta 0 value 0 0 0 with
    | Return delta => DateTime.add now delta
    | Raise e => Raise e
    end
  else if PyStr.contains "minute" unit then
    match DateTime.new_timedelta 0 0 0 value 0 with
    | Return delta => DateTime.add now delta
    | Raise e => Raise e
    end
  else if PyStr.contains "hour" unit then
    match DateTime.new_timedelta 0 0 0 0 value with
    | Return delta => DateTime.add now delta
    | Raise e => Raise e
    end
  else Return now.

(** The [except] block of [parse_reminder]; [now] is what
    [datetime.now()] reads there. *)
Definition fallbacks (now : DateTime.datetime) (text : string)
  : M (option DateTime.datetime * option string) :=
  match Re.search text with
  | Some (g1, g2) =>
      value <- lift (PyStr.int g1) ;;
      let unit := PyStr.lower g2 in
      dt <- lift (offset now unit value) ;;
      let message :=
        if PyStr.contains "to" text
        then PyStr.strip (PyStr.last_item (PyStr.split1 "to" text))
        else text in
      ret (Some dt, Some message)
  | None =>
      match dateparser_parse text with
      | Some dt => ret (Some dt, Some text)
      | None => ret (None, None)
      end
  end.

Definition parse_reminder (now : DateTime.datetime) (text : string)
  : M (option DateTime.datetime * option string) :=
  try_except (semantic_step text) (fallbacks now text).

(** [chat] is [str(update.effective_chat.id)]. *)
Definition handle_reminder_request (now : DateTime.datetime)
           (chat text : string) : M unit :=
  parsed <- parse_reminder now text ;;
  match parsed with
  | (Some dt, Some message) =>
      add_reminder chat message (DateTime.strftime dt) ;;
      send_message chat (Confirmation dt message)
  | _ => send_message chat Guidance
  end.

Definition start (chat : string) : M unit := send_message chat Welcome.

Definition remind (now : DateTime.datetime) (chat : string)
           (args : list string) : M unit :=
  handle_reminder_request now chat (String.concat " " args).

Definition handle_text_reminder (now : DateTime.datetime)
           (chat text : string) : M unit :=
  if PyStr.contains "remind" (PyStr.lower text)
  then handle_reminder_request now chat text
  else ret tt.

(** The loop of [check_reminders] over the fetched rows. *)
Fixpoint dispatch (reminders : list (Z * string * string)) : M unit :=
  match reminders with
  | [] => ret tt
  | (r_id, chat_id, message) :: rest =>
      send_message chat_id (Notification message) ;;
      delete_reminder r_id ;;
      dispatch rest
  end.

(** [now] is what [datetime.now()] reads in [get_due_reminders]. *)
Definition check_reminders (now : DateTime.datetime) : M unit :=
  reminders <- get_due_reminders now ;;
  dispatch reminders.

End Bot.

(** ** Histories of the table *)

Inductive op : Type :=
| Insert (chat message time : string)
| Delete (i : Z).

(** The table after a sequence of statements, with the rowids its
    inserts were given, oldest first; an insert that raises leaves the
    table as it was. *)
Fixpoint run (ops : list op) (t : Store.table) : Store.table * list Z :=
  match ops with
  | [] => (t, [])
  | Insert chat message time :: rest =>
      match Store.add_reminder chat message time t with
      | Return t' => let (t'', ids) := run rest t' in (t'', Store.seq t' :: ids)
      | Raise _ => run rest t
      end
  | Delete i :: rest => run rest (Store.delete_reminder i t)
  end.

(** A table keyed by [id]: rows in increasing id order, none
    above the sequence value. *)
Definition keyed (t : Store.table) : Prop :=
  StronglySorted Z.lt (map Store.id (Store.rows t))
  /\ Forall (fun r => Store.id r <= Store.seq t) (Store.rows t).

(** ** Reading a scan *)

(** What [check_reminders] hands to Telegram for a fetched row. *)
Definition attempt (x : Z * string * string) : string * outgoing :=
  let '(_, chat_id, message) := x in (chat_id, Notification message).

Definition fetched_id (x : Z * string * string) : Z := fst (fst x).

(** The table after deleting the given ids one after the other. *)
Definition delete_all (ids : list Z) (t : Store.table) : Store.table :=
  fold_left (fun t i => Store.delete_reminder i t) ids t.

(** ** Words of a text *)

(** The runs of characters between white space, empty runs included. *)
Fixpoint tokens (s : string) : list string :=
  match s with
  | EmptyString => [EmptyString]
  | String c s' =>
      if PyStr.isspace c then EmptyString :: tokens s'
      else match tokens s' with
           | t :: ts => String c t :: ts
           | [] => [String c EmptyString]
           end
  end.

(** The words of a text, as [text.split()] lists them. *)
Definition words (s : string) : list string :=
  filter (fun t => negb (String.eqb t EmptyString)) (tokens s).

Definition has_word (w s : string) : bool :=
  existsb (String.eqb w) (words s).

(** Texts made of white space only. *)
Fixpoint blank (s : string) : bool :=
  match s with
  | EmptyString => true
  | String c s' => PyStr.isspace c && blank s'
  end.

(** ** Occurrences of the relative-offset phrase *)

(** The phrase "in <digits> <unit>" stands in [text] right after [pre],
    whatever the case of its letters. *)
Definition occurrence (pre ds u text : string) : Prop :=
  exists kw rest,
    text = (pre ++ kw ++ " " ++ ds ++ " " ++ u ++ rest)%string
    /\ PyStr.lower kw = "in"
    /\ ds <> EmptyString /\ PyStr.all_digits ds = true
    /\ In (PyStr.lower u) ["second"; "minute"; "hour"].

(** No occurrence of the phrase starts further to the left. *)
Definition leftmost (pre ds u text : string) : Prop :=
  occurrence pre ds u text
  /\ forall pre' ds' u',
      occurrence pre' ds' u' text ->
      (String.length pre <= String.length pre')%nat.

(** [text] reads [a], then its first [sep], then [b]. *)
Definition first_split (sep a b text : string) : Prop :=
  text = (a ++ sep ++ b)%string
  /\ forall a' b',
      text = (a' ++ sep ++ b')%string ->
      (String.length a <= String.length a')%nat.

(** The length in seconds of a unit word. *)
Definition unit_seconds (u : string) : Z :=
  if String.eqb (PyStr.lower u) "second" then 1
  else if String.eqb (PyStr.lower u) "minute" then 60
  else 3600.

(** One past the last second a [datetime] can hold, counted from
    0001-01-01 00:00:00. *)
Definition END_OF_TIME : Z := DateTime.MAXORDINAL * 86400.

(** ** Fixtures of the end-to-end scenarios *)

Module Scenario.

(** The GPT service is unavailable. *)
Definition gpt_down : string -> option (string * option string) :=
  fun _ => None.

(** A date parser that recognises nothing. *)
Definition no_date : string -> option DateTime.datetime := fun _ => None.

Definition telegram_up : list (string * outgoing) -> string -> outgoing -> bool :=
  fun _ _ _ => true.

Definition telegram_down : list (string * outgoing) -> string -> outgoing -> bool :=
  fun _ _ _ => false.

(** Telegram accepts texts for chat 42 only. *)
Definition telegram_only_42
  : list (string * outgoing) -> string -> outgoing -> bool :=
  fun _ chat _ => String.eqb chat "42".

Definition T0 : DateTime.datetime :=
  DateTime.mkdatetime 2025 6 1 12 0 0 0.

Definition T0_plus (s : Z) : DateTime.datetime :=
  DateTime.mkdatetime 2025 6 1 12 0 s 0.

Definition fresh : world := mkworld Store.empty [] [].

Definition two_due : Store.table :=
  Store.mktable
    [Store.mkrow 1 "42" "drink water" "2025-06-01 12:00:10";
     Store.mkrow 2 "43" "call mom" "2025-06-01 12:00:10"] 2.

End Scenario.

(** ** Fixtures with answering services *)

Module Answers.

Definition tomorrow_5pm : DateTime.datetime :=
  DateTime.mkdatetime 2025 6 2 17 0 0 0.

(** A date parser that knows one phrase. *)
Definition parse_tomorrow : string -> option DateTime.datetime :=
  fun s => if String.eqb s "tomorrow at 5 PM" then Some tomorrow_5pm else None.

(** GPT splits every text into that phrase and the message "call mom". *)
Definition gpt_call_mom : string -> option (string * option string) :=
  fun _ => Some ("tomorrow at 5 PM", Some "call mom").

(** GPT finds the time and answers a JSON null for the message. *)
Definition gpt_null_message : string -> option (string * option string) :=
  fun _ => Some ("tomorrow at 5 PM", None).

End Answers.

(** Microseconds elapsed since 0001-01-01 00:00:00. *)
Definition total_microseconds (d : DateTime.datetime) : Z :=
  DateTime.total_seconds d * 1000000 + DateTime.microsecond d.

(** * Properties *)

(** Linear arithmetic with quotients and remainders by constants. *)
Ltac divlia := Z.to_euclidean_division_equations; lia.

(** Evaluation of table look-ups and of comparisons of constants. *)
Ltac table :=
  repeat match goal with
         | |- context [DateTime.item ?l ?k] =>
             let v := eval vm_compute in (DateTime.item l k) in
             change (DateTime.item l k) with v
         | |- context [?a <? ?b] =>
             let v := eval vm_compute in (a <? b) in
             match v with
             | true => change (a <? b) with true
             | false => change (a <? b) with false
             end
         | |- context [?a =? ?b] =>
             let v := eval vm_compute in (a =? b) in
             match v with
             | true => change (a =? b) with true
             | false => change (a =? b) with false
             end
         end;
  cbn [andb orb negb].


(** ** Strings *)

Lemma append_assoc (a b c : string) : ((a ++ b) ++ c = a ++ (b ++ c))%string.
Proof. induction a as [|x a IH]; simpl; [reflexivity | now rewrite IH]. Qed.

Lemma append_empty_r (a : string) : (a ++ "")%string = a.
Proof. induction a as [|x a IH]; simpl; [reflexivity | now rewrite IH]. Qed.

Lemma length_append (a b : string) :
  String.length (a ++ b) = (String.length a + String.length b)%nat.
Proof. induction a as [|x a IH]; simpl; [reflexivity | now rewrite IH]. Qed.

Lemma drop_append (a b : string) : PyStr.drop (String.length a) (a ++ b) = b.
Proof. induction a as [|x a IH]; simpl; [now destruct b | exact IH]. Qed.

Lemma prefix_iff (p s : string) :
  prefix p s = true <-> exists r, s = (p ++ r)%string.
Proof.
  revert s; induction p as [|a p IH]; intros s; simpl.
  - split; [intros _; now exists s | now destruct s].
  - destruct s as [|c s]; simpl.
    + split; [discriminate | intros [r Hr]; discriminate].
    + destruct (ascii_dec a c) as [->|Hne].
      * rewrite IH. split; intros [r Hr]; exists r; congruence.
      * split; [discriminate | intros [r Hr]; congruence].
Qed.

Lemma contains_empty (sub : string) :
  PyStr.contains sub EmptyString = prefix sub EmptyString.
Proof. unfold PyStr.contains. apply orb_false_r. Qed.

Lemma contains_cons (sub : string) (c : ascii) (s : string) :
  PyStr.contains sub (String c s)
  = prefix sub (String c s) || PyStr.contains sub s.
Proof. reflexivity. Qed.

Lemma contains_iff (sub s : string) :
  PyStr.contains sub s = true <-> exists a b, s = (a ++ sub ++ b)%string.
Proof.
  induction s as [|c s IH].
  - rewrite contains_empty, prefix_iff. split.
    + intros [r Hr]. now exists EmptyString, r.
    + intros [a [b Hab]]. destruct a; simpl in Hab; [now exists b | discriminate].
  - rewrite contains_cons, orb_true_iff, prefix_iff, IH. split.
    + intros [[r Hr] | [a [b Hab]]].
      * now exists EmptyString, r.
      * exists (String c a), b. simpl. now rewrite Hab.
    + intros [a [b Hab]]. destruct a as [|x a]; simpl in Hab.
      * left. now exists b.
      * right. exists a, b. congruence.
Qed.

(** ** The table: deletion and rowids *)

Section TableFacts.

Implicit Types (t : Store.table) (r : Store.row) (i : Z).


Lemma filter_all {A : Type} (f : A -> bool) (l : list A) :
  (forall x, In x l -> f x = true) -> filter f l = l.
Proof.
  induction l as [|x l IH]; simpl; intros H; [reflexivity|].
  rewrite (H x (or_introl eq_refl)), IH; [reflexivity|].
  intros y Hy. apply H. now right.
Qed.

Lemma largest_rowid_bound (rs : list Store.row) r :
  In r rs -> Store.id r <= Store.largest_rowid rs.
Proof.
  induction rs as [|x rs IH]; simpl; [contradiction|].
  intros [->|H]; [lia | specialize (IH H); lia].
Qed.

Lemma next_rowid_above t i :
  Store.next_rowid t = Return i ->
  Store.seq t < i /\ i <= Store.max_rowid
  /\ forall r, In r (Store.rows t) -> Store.id r < i.
Proof.
  unfold Store.next_rowid.
  destruct (Z.leb_spec Store.max_rowid
              (Z.max (Store.seq t) (Store.largest_rowid (Store.rows t))));
    [discriminate|].
  intros [= <-]. repeat split; try lia.
  intros r Hr. apply largest_rowid_bound in Hr. lia.
Qed.

Lemma add_reminder_inv chat message time t t' :
  Store.add_reminder chat message time t = Return t' ->
  Store.next_rowid t = Return (Store.seq t')
  /\ Store.rows t'
     = (Store.rows t ++ [Store.mkrow (Store.seq t') chat message time])%list.
Proof.
  unfold Store.add_reminder.
  destruct (Store.next_rowid t) as [i|e]; [|discriminate].
  intros [= <-]. simpl. split; reflexivity.
Qed.

Lemma delete_reminder_seq i t :
  Store.seq (Store.delete_reminder i t) = Store.seq t.
Proof. reflexivity. Qed.

Lemma run_app (ops1 ops2 : list op) t :
  run (ops1 ++ ops2)%list t
  = (fst (run ops2 (fst (run ops1 t))),
     (snd (run ops1 t) ++ snd (run ops2 (fst (run ops1 t))))%list).
Proof.
  revert t; induction ops1 as [|o ops1 IH]; intros t; simpl.
  - now destruct (run ops2 t).
  - destruct o as [chat message time|i].
    + destruct (Store.add_reminder chat message time t) as [t'|e].
      * rewrite IH. destruct (run ops1 t') as [t1 ids1]. reflexivity.
      * apply IH.
    + apply IH.
Qed.

(** Every rowid handed out by a history lies above the sequence value
    the history started from, and the rowids come out increasing. *)
Lemma run_rowids (ops : list op) t :
  Forall (fun i => Store.seq t < i) (snd (run ops t))
  /\ StronglySorted Z.lt (snd (run ops t))
  /\ Store.seq t <= Store.seq (fst (run ops t)).
Proof.
  revert t; induction ops as [|o ops IH]; intros t; simpl.
  - repeat split; [constructor | constructor | lia].
  - destruct o as [chat message time|i].
    + destruct (Store.add_reminder chat message time t) as [t'|e] eqn:E.
      * apply add_reminder_inv in E. destruct E as [E _].
        apply next_rowid_above in E. destruct E as [E _].
        destruct (IH t') as [H1 [H2 H3]].
        destruct (run ops t') as [t1 ids]. simpl in *.
        repeat split.
        -- constructor; [exact E|].
           eapply Forall_impl; [|exact H1]. simpl. intros; lia.
        -- constructor; assumption.
        -- lia.
      * apply IH.
    + destruct (IH (Store.delete_reminder i t)) as [H1 [H2 H3]].
      rewrite delete_reminder_seq in *. repeat split; assumption.
Qed.

Lemma sorted_app_disjoint (l1 l2 : list Z) i :
  StronglySorted Z.lt (l1 ++ l2)%list -> In i l1 -> ~ In i l2.
Proof.
  induction l1 as [|x l1 IH]; simpl; intros Hs Hin Hagain; [contradiction|].
  apply StronglySorted_inv in Hs. destruct Hs as [Hs Hall].
  destruct Hin as [->|Hin]; [|now apply IH].
  rewrite Forall_forall in Hall.
  specialize (Hall i (in_or_app _ _ _ (or_intror Hagain))). lia.
Qed.

Lemma sorted_ids_app (rs : list Store.row) (r : Store.row) :
  StronglySorted Z.lt (map Store.id rs) ->
  Forall (fun x => Store.id x < Store.id r) rs ->
  StronglySorted Z.lt (map Store.id (rs ++ [r])%list).
Proof.
  induction rs as [|x rs IH]; simpl; intros Hs Hall.
  - repeat constructor.
  - apply StronglySorted_inv in Hs. destruct Hs as [Hs Hx].
    apply Forall_cons_iff in Hall. destruct Hall as [Hxr Hall].
    constructor; [now apply IH|].
    rewrite map_app. apply Forall_app. split; [exact Hx|].
    simpl. repeat constructor. exact Hxr.
Qed.

Lemma sorted_ids_filter (keep : Store.row -> bool) (rs : list Store.row) :
  StronglySorted Z.lt (map Store.id rs) ->
  StronglySorted Z.lt (map Store.id (filter keep rs)).
Proof.
  induction rs as [|x rs IH]; simpl; intros Hs; [constructor|].
  apply StronglySorted_inv in Hs. destruct Hs as [Hs Hx].
  destruct (keep x); simpl; [|now apply IH].
  constructor; [now apply IH|].
  rewrite Forall_forall in *. intros i Hi. apply Hx.
  apply in_map_iff in Hi. destruct Hi as [y [<- Hy]].
  apply filter_In in Hy. apply in_map. tauto.
Qed.

Lemma sorted_ids_NoDup (ids : list Z) : StronglySorted Z.lt ids -> NoDup ids.
Proof.
  induction ids as [|i ids IH]; intros Hs; constructor;
    apply StronglySorted_inv in Hs; destruct Hs as [Hs Hi]; [|now apply IH].
  intros Hin. rewrite Forall_forall in Hi. specialize (Hi i Hin). lia.
Qed.

Lemma add_reminder_keyed chat message time t t' :
  keyed t -> Store.add_reminder chat message time t = Return t' -> keyed t'.
Proof.
  intros [Hs Hall] E. apply add_reminder_inv in E. destruct E as [Hnext Hrows].
  apply next_rowid_above in Hnext. destruct Hnext as [Hseq [_ Habove]].
  unfold keyed. rewrite Hrows. split.
  - apply sorted_ids_app; [exact Hs|]. simpl.
    apply Forall_forall. exact Habove.
  - apply Forall_app. split.
    + apply Forall_forall. intros r Hr. specialize (Habove r Hr). lia.
    + repeat constructor. simpl. lia.
Qed.

Lemma delete_reminder_keyed i t : keyed t -> keyed (Store.delete_reminder i t).
Proof.
  intros [Hs Hall]. split; simpl.
  - now apply sorted_ids_filter.
  - rewrite Forall_forall in *. intros r Hr. apply filter_In in Hr.
    now apply Hall.
Qed.

Lemma run_keyed (ops : list op) t : keyed t -> keyed (fst (run ops t)).
Proof.
  revert t; induction ops as [|o ops IH]; intros t Ht; [exact Ht|].
  destruct o as [chat message time|i]; simpl.
  - destruct (Store.add_reminder chat message time t) as [t'|e] eqn:E.
    + specialize (IH t' (add_reminder_keyed _ _ _ _ _ Ht E)).
      now destruct (run ops t').
    + now apply IH.
  - apply IH. now apply delete_reminder_keyed.
Qed.

Lemma empty_keyed : keyed Store.empty.
Proof. split; constructor. Qed.

Lemma largest_rowid_keyed t :
  keyed t -> 0 <= Store.seq t ->
  Store.largest_rowid (Store.rows t) <= Store.seq t.
Proof.
  intros [_ Hall] Hseq. destruct t as [rs s]. cbn [Store.rows Store.seq] in *.
  induction rs as [|r rs IH]; cbn [Store.largest_rowid fold_right]; [exact Hseq|].
  apply Forall_cons_iff in Hall. destruct Hall as [Hr Hall].
  specialize (IH Hall). unfold Store.largest_rowid in IH. lia.
Qed.

(** On a table keyed by id the next rowid is the sequence value plus
    one, as long as the sequence has not reached the largest rowid. *)
Lemma next_rowid_keyed t :
  keyed t -> 0 <= Store.seq t ->
  Store.next_rowid t
  = if Store.max_rowid <=? Store.seq t then Raise SqliteFull
    else Return (Store.seq t + 1).
Proof.
  intros Hk Hseq. pose proof (largest_rowid_keyed t Hk Hseq) as Hl.
  unfold Store.next_rowid. cbv zeta.
  replace (Z.max (Store.seq t) (Store.largest_rowid (Store.rows t)))
    with (Store.seq t) by lia.
  reflexivity.
Qed.

(** The sequence value counts the rowids handed out. *)
Lemma run_counts (ops : list op) t :
  keyed t -> 0 <= Store.seq t ->
  Store.seq (fst (run ops t))
  = Store.seq t + Z.of_nat (List.length (snd (run ops t))).
Proof.
  revert t; induction ops as [|o ops IH]; intros t Hk Hseq.
  - cbn [run fst snd List.length]. lia.
  - destruct o as [chat message time|i]; cbn [run].
    + destruct (Store.add_reminder chat message time t) as [t'|e] eqn:E.
      * pose proof (add_reminder_keyed _ _ _ _ _ Hk E) as Hk'.
        apply add_reminder_inv in E. destruct E as [Hnext _].
        rewrite (next_rowid_keyed t Hk Hseq) in Hnext.
        destruct (Store.max_rowid <=? Store.seq t); [discriminate|].
        injection Hnext as Hnext.
        specialize (IH t' Hk' ltac:(lia)).
        destruct (run ops t') as [t1 ids]. cbn [fst snd List.length] in *. lia.
      * now apply IH.
    + rewrite (IH (Store.delete_reminder i t));
        [reflexivity | now apply delete_reminder_keyed | exact Hseq].
Qed.

End TableFacts.




(** C9. Rowids are given out in strictly increasing order over every
    history of inserts and deletes of a new database, so each insert gets
    an id above all ids given before; no two rows of the table carry the
    same id; and an id handed out before a deletion is not handed out
    again by any later insert.  Inserts do yield ids: the sequence value
    counts the ids handed out, and as long as fewer than [max_rowid] ids
    were handed out, one more insert returns, stores its row at the end of
    the table under the next number, above every id handed out before and
    every id in the table, and hands out that number. *)
Theorem rowids_fresh_and_increasing :
  forall ops : list op,
    StronglySorted Z.lt (snd (run ops (Store.init_db None)))
    /\ NoDup (map Store.id (Store.rows (fst (run ops (Store.init_db None)))))
    /\ (forall ops1 ops2 i,
          ops = (ops1 ++ Delete i :: ops2)%list ->
          In i (snd (run ops1 (Store.init_db None))) ->
          ~ In i (snd (run ops2
                         (Store.delete_reminder i
                            (fst (run ops1 (Store.init_db None)))))))
    /\ Store.seq (fst (run ops (Store.init_db None)))
       = Z.of_nat (List.length (snd (run ops (Store.init_db None))))
    /\ (forall chat message time,
          Z.of_nat (List.length (snd (run ops (Store.init_db None))))
          < Store.max_rowid ->
          let t := fst (run ops (Store.init_db None)) in
          let i := Z.of_nat (List.length (snd (run ops (Store.init_db None)))) + 1 in
          Store.add_reminder chat message time t
          = Return (Store.mktable
                      (Store.rows t ++ [Store.mkrow i chat message time])%list
                      i)
          /\ run (ops ++ [Insert chat message time])%list (Store.init_db None)
             = (Store.mktable
                  (Store.rows t ++ [Store.mkrow i chat message time])%list i,
                (snd (run ops (Store.init_db None)) ++ [i])%list)
          /\ (forall j, In j (snd (run ops (Store.init_db None))) -> j < i)
          /\ (forall r, In r (Store.rows t) -> Store.id r < i)).
Proof.
  intros ops. change (Store.init_db None) with Store.empty.
  assert (Store.seq (fst (run ops Store.empty))
          = Z.of_nat (List.length (snd (run ops Store.empty)))) as Hcount.
  { now rewrite (run_counts ops _ empty_keyed). }
  pose proof (run_keyed ops _ empty_keyed) as Hkeyed.
  split; [|split; [|split; [|split]]].
  - apply run_rowids.
  - apply sorted_ids_NoDup. apply Hkeyed.
  - intros ops1 ops2 i -> Hin Hagain.
    destruct (run_rowids (ops1 ++ Delete i :: ops2)%list Store.empty)
      as [_ [Hs _]].
    rewrite run_app in Hs. simpl in Hs.
    exact (sorted_app_disjoint _ _ i Hs Hin Hagain).
  - exact Hcount.
  - intros chat message time Hroom t i.
    assert (Store.next_rowid t = Return i) as Hnext.
    { unfold t, i.
      rewrite (next_rowid_keyed _ Hkeyed) by (rewrite Hcount; lia).
      rewrite Hcount.
      destruct (Z.leb_spec Store.max_rowid
                  (Z.of_nat (List.length (snd (run ops Store.empty)))));
        [lia | reflexivity]. }
    assert (Store.add_reminder chat message time t
            = Return (Store.mktable
                        (Store.rows t ++ [Store.mkrow i chat message time])%list
                        i)) as Hadd.
    { unfold Store.add_reminder. now rewrite Hnext. }
    split; [exact Hadd|]. split; [|split].
    + rewrite run_app. fold t. cbn [run]. rewrite Hadd. reflexivity.
    + intros j Hj.
      destruct (run_rowids (ops ++ [Insert chat message time])%list
                  Store.empty) as [_ [Hs _]].
      rewrite run_app in Hs. fold t in Hs. cbn [run snd] in Hs.
      rewrite Hadd in Hs. cbn [snd Store.seq] in Hs.
      clearbody i. clear - Hs Hj.
      induction (snd (run ops Store.empty)) as [|x l IH];
        [contradiction|].
      cbn [app] in Hs. apply StronglySorted_inv in Hs. destruct Hs as [Hs Hx].
      destruct Hj as [->|Hj]; [|now apply IH].
      rewrite Forall_forall in Hx. apply Hx. apply in_or_app. right. now left.
    + apply next_rowid_above in Hnext. apply Hnext.
Qed.

Lemma rowids_fresh_and_increasing_witness :
  ~ In 1 (snd (run [Insert "42" "walk" "2025-06-01 12:00:10"]
                 (Store.delete_reminder 1
                    (fst (run [Insert "42" "drink water" "2025-06-01 12:00:10"]
                            (Store.init_db None))))))
  /\ run [Insert "42" "drink water" "2025-06-01 12:00:10"; Delete 1;
          Insert "42" "walk" "2025-06-01 12:00:10"] (Store.init_db None)
     = (Store.mktable [Store.mkrow 2 "42" "walk" "2025-06-01 12:00:10"] 2,
        [1; 2]).
Proof.
  split.
  - destruct (rowids_fresh_and_increasing
                [Insert "42" "drink water" "2025-06-01 12:00:10"; Delete 1;
                 Insert "42" "walk" "2025-06-01 12:00:10"]) as [_ [_ [H _]]].
    apply (H [Insert "42" "drink water" "2025-06-01 12:00:10"]
             [Insert "42" "walk" "2025-06-01 12:00:10"] 1).
    + reflexivity.
    + simpl. left. reflexivity.
  - destruct (rowids_fresh_and_increasing
                [Insert "42" "drink water" "2025-06-01 12:00:10"; Delete 1])
      as [_ [_ [_ [_ H]]]].
    destruct (H "42" "walk" "2025-06-01 12:00:10") as [_ [Hrun _]].
    + vm_compute. reflexivity.
    + exact Hrun.
Defined.

(** ** Ordering of formatted date-times *)

Section Ordering.

Import DateTime.

Lemma ascii_compare_lt_trans (a b c : ascii) :
  Ascii.compare a b = Lt -> Ascii.compare b c = Lt -> Ascii.compare a c = Lt.
Proof.
  unfold Ascii.compare. rewrite !N.compare_lt_iff. lia.
Qed.

Lemma string_compare_lt_trans (a b c : string) :
  String.compare a b = Lt -> String.compare b c = Lt ->
  String.compare a c = Lt.
Proof.
  revert b c; induction a as [|x a IH]; intros [|y b] [|z c]; simpl;
    try congruence.
  destruct (Ascii.compare x y) eqn:Exy; try discriminate;
    destruct (Ascii.compare y z) eqn:Eyz; try discriminate; intros Hab Hbc.
  - apply Ascii.compare_eq_iff in Exy, Eyz. subst.
    replace (Ascii.compare z z) with Eq
      by (symmetry; apply N.compare_refl).
    eauto.
  - apply Ascii.compare_eq_iff in Exy. subst. now rewrite Eyz.
  - apply Ascii.compare_eq_iff in Eyz. subst. now rewrite Exy.
  - now rewrite (ascii_compare_lt_trans x y z).
Qed.

Lemma string_leb_trans (a b c : string) :
  String.leb a b = true -> String.leb b c = true -> String.leb a c = true.
Proof.
  unfold String.leb.
  destruct (String.compare a b) eqn:Eab; try discriminate;
    destruct (String.compare b c) eqn:Ebc; try discriminate; intros _ _.
  - apply String.compare_eq_iff in Eab. subst. now rewrite Ebc.
  - apply String.compare_eq_iff in Eab. subst. now rewrite Ebc.
  - apply String.compare_eq_iff in Ebc. subst. now rewrite Eab.
  - now rewrite (string_compare_lt_trans a b c).
Qed.

Lemma string_compare_refl (a : string) : String.compare a a = Eq.
Proof.
  induction a as [|x a IH]; simpl; [reflexivity|].
  replace (Ascii.compare x x) with Eq by (symmetry; apply N.compare_refl).
  exact IH.
Qed.

Lemma compare_append (x y s t : string) :
  String.length x = String.length y ->
  String.compare (x ++ s) (y ++ t)
  = lex (String.compare x y) (String.compare s t).
Proof.
  revert y; induction x as [|a x IH]; intros [|b y]; simpl;
    try discriminate; [reflexivity|].
  intros [= H]. destruct (Ascii.compare a b); [now apply IH | | ]; reflexivity.
Qed.

Lemma compare_digit_char (x y : Z) :
  0 <= x <= 9 -> 0 <= y <= 9 ->
  Ascii.compare (digit_char x) (digit_char y) = (x ?= y).
Proof.
  intros Hx Hy. unfold Ascii.compare, digit_char.
  rewrite !N_ascii_embedding by lia.
  rewrite (Z2N.inj_compare (48 + x) (48 + y)) by lia.
  apply Z.add_compare_mono_l.
Qed.

Lemma lex_radix (b x1 x0 y1 y0 : Z) :
  0 <= x0 < b -> 0 <= y0 < b ->
  lex (x1 ?= y1) (x0 ?= y0) = (b * x1 + x0 ?= b * y1 + y0).
Proof.
  intros Hx Hy. symmetry.
  destruct (Z.compare_spec x1 y1) as [->|H|H]; simpl.
  - destruct (Z.compare_spec x0 y0);
      [apply Z.compare_eq_iff | apply Z.compare_lt_iff | apply Z.compare_gt_iff];
      lia.
  - apply Z.compare_lt_iff. nia.
  - apply Z.compare_gt_iff. nia.
Qed.

Lemma compare_cons (c d : ascii) (s t : string) :
  String.compare (String c s) (String d t)
  = lex (Ascii.compare c d) (String.compare s t).
Proof. simpl. now destruct (Ascii.compare c d). Qed.

Lemma lex_eq_r (c : comparison) : lex c Eq = c.
Proof. now destruct c. Qed.

Lemma lex_eq_l (c : comparison) : lex Eq c = c.
Proof. reflexivity. Qed.

Lemma compare_pad2 (a b : Z) :
  0 <= a < 100 -> 0 <= b < 100 ->
  String.compare (pad2 a) (pad2 b) = (a ?= b).
Proof.
  intros Ha Hb. unfold pad2. rewrite !compare_cons.
  rewrite !compare_digit_char by divlia.
  change (String.compare EmptyString EmptyString) with Eq.
  rewrite lex_eq_r, (lex_radix 10) by divlia.
  f_equal; divlia.
Qed.

Lemma compare_pad4 (a b : Z) :
  0 <= a < 10000 -> 0 <= b < 10000 ->
  String.compare (pad4 a) (pad4 b) = (a ?= b).
Proof.
  intros Ha Hb. unfold pad4. rewrite !compare_cons.
  rewrite !compare_digit_char, compare_pad2 by divlia.
  rewrite (lex_radix 100) by divlia.
  rewrite (lex_radix 1000) by divlia.
  f_equal; divlia.
Qed.

Lemma valid_fields (d : datetime) :
  valid d = true ->
  1 <= year d <= 9999 /\ 1 <= month d <= 12
  /\ 1 <= day d <= days_in_month (year d) (month d)
  /\ 0 <= hour d < 24 /\ 0 <= minute d < 60 /\ 0 <= second d < 60
  /\ 0 <= microsecond d < 1000000.
Proof.
  unfold valid. rewrite !andb_true_iff, !Z.leb_le, !Z.ltb_lt. tauto.
Qed.

Lemma days_in_month_bound (y m : Z) :
  1 <= m <= 12 -> 28 <= days_in_month y m <= 31.
Proof.
  intros Hm. unfold days_in_month.
  destruct ((m =? 2) && is_leap y); [lia|].
  assert (m = 1 \/ m = 2 \/ m = 3 \/ m = 4 \/ m = 5 \/ m = 6 \/ m = 7
          \/ m = 8 \/ m = 9 \/ m = 10 \/ m = 11 \/ m = 12) as H by lia.
  repeat (destruct H as [->|H]; [vm_compute; split; discriminate|]).
  subst. vm_compute; split; discriminate.
Qed.

(** The formatted texts compare as the date-times they print, to the
    second. *)
Lemma compare_strftime (a b : datetime) :
  valid a = true -> valid b = true ->
  String.compare (strftime a) (strftime b)
  = cmp (whole_second a) (whole_second b).
Proof.
  intros Ha Hb.
  apply valid_fields in Ha, Hb.
  pose proof (days_in_month_bound (year a) (month a)).
  pose proof (days_in_month_bound (year b) (month b)).
  unfold strftime, cmp, whole_second.
  cbn [year month day hour minute second microsecond].
  repeat (rewrite compare_append by reflexivity;
          rewrite ?compare_pad4, ?compare_pad2 by lia;
          rewrite ?string_compare_refl, ?lex_eq_l).
  rewrite Z.compare_refl, lex_eq_r. reflexivity.
Qed.

Lemma cmp_whole_second (a b : datetime) :
  0 <= microsecond b ->
  leb (whole_second a) b = leb (whole_second a) (whole_second b).
Proof.
  intros Hb. unfold leb, cmp, whole_second.
  cbn [year month day hour minute second microsecond].
  rewrite Z.compare_refl.
  destruct (Z.compare_spec 0 (microsecond b)); [| |lia];
    destruct (year a ?= year b), (month a ?= month b), (day a ?= day b),
      (hour a ?= hour b), (minute a ?= minute b), (second a ?= second b);
    reflexivity.
Qed.

Lemma leb_whole_second (a b : datetime) :
  leb a b = true -> leb (whole_second a) (whole_second b) = true.
Proof.
  unfold leb, cmp, whole_second.
  cbn [year month day hour minute second microsecond].
  destruct (year a ?= year b), (month a ?= month b), (day a ?= day b),
    (hour a ?= hour b), (minute a ?= minute b), (second a ?= second b);
    simpl; congruence.
Qed.

(** The WHERE clause on a row that holds a formatted date-time. *)
Lemma due_strftime (d now : datetime) (r : Store.row) :
  valid d = true -> valid now = true ->
  Store.remind_time r = strftime d ->
  Store.due now r = leb (whole_second d) now.
Proof.
  intros Hd Hnow Hr. unfold Store.due. rewrite Hr.
  rewrite cmp_whole_second by (apply valid_fields in Hnow; lia).
  unfold String.leb, leb. now rewrite compare_strftime.
Qed.

(** Formatting is monotone. *)
Lemma strftime_mono (a b : datetime) :
  valid a = true -> valid b = true -> leb a b = true ->
  String.leb (strftime a) (strftime b) = true.
Proof.
  intros Ha Hb Hab. apply leb_whole_second in Hab.
  unfold String.leb. rewrite compare_strftime by assumption.
  exact Hab.
Qed.

Lemma due_mono (now now' : datetime) (r : Store.row) :
  valid now = true -> valid now' = true -> leb now now' = true ->
  Store.due now r = true -> Store.due now' r = true.
Proof.
  intros Ha Hb Hab Hr. unfold Store.due in *.
  eapply string_leb_trans; [exact Hr | now apply strftime_mono].
Qed.

End Ordering.

(** ** The due query *)

Lemma run_keeps_row (ops : list op) (t : Store.table) (r : Store.row) :
  In r (Store.rows t) ->
  Forall (fun o => o <> Delete (Store.id r)) ops ->
  In r (Store.rows (fst (run ops t))).
Proof.
  revert t; induction ops as [|o ops IH]; intros t Hr Hops; [exact Hr|].
  apply Forall_cons_iff in Hops. destruct Hops as [Ho Hops].
  destruct o as [chat message time|i]; simpl.
  - destruct (Store.add_reminder chat message time t) as [t'|e] eqn:E.
    + apply add_reminder_inv in E. destruct E as [_ E].
      specialize (IH t'). destruct (run ops t') as [t'' ids]. simpl in *.
      apply IH; [|exact Hops]. rewrite E. apply in_or_app. now left.
    + now apply IH.
  - apply IH; [|exact Hops]. simpl. apply filter_In. split; [exact Hr|].
    apply negb_true_iff, Z.eqb_neq. congruence.
Qed.

(** C6. On a table whose [remind_time] texts are date-times formatted as
    ["YYYY-MM-DD HH:MM:SS"], the due query returns exactly the rows whose
    instant is not after [now]: the textual comparison of the query
    agrees with the comparison of the instants. *)
Theorem get_due_reminders_exact :
  forall (t : Store.table) (due_instant : Store.row -> DateTime.datetime)
         (now : DateTime.datetime),
    DateTime.valid now = true ->
    (forall r, In r (Store.rows t) ->
               DateTime.valid (due_instant r) = true
               /\ Store.remind_time r = DateTime.strftime (due_instant r)) ->
    Store.get_due_reminders now t
    = map Store.selected
        (filter (fun r => DateTime.leb (DateTime.whole_second (due_instant r)) now)
                (Store.rows t)).
Proof.
  intros t due_instant now Hnow Hrows. unfold Store.get_due_reminders.
  f_equal. apply filter_ext_in. intros r Hr.
  destruct (Hrows r Hr) as [Hv Htime].
  now apply due_strftime.
Qed.

Lemma get_due_reminders_exact_witness :
  Store.get_due_reminders (Scenario.T0_plus 11) Scenario.two_due
  = map Store.selected
      (filter (fun r => DateTime.leb
                          (DateTime.whole_second (Scenario.T0_plus 10))
                          (Scenario.T0_plus 11))
              (Store.rows Scenario.two_due)).
Proof.
  apply (get_due_reminders_exact Scenario.two_due
           (fun _ => Scenario.T0_plus 10) (Scenario.T0_plus 11)).
  - reflexivity.
  - simpl. intros r [<-|[<-|[]]]; split; reflexivity.
Defined.

(** C7. A reminder returned by the due query at [now] is returned again
    at every later [now'], whatever was inserted or deleted in between,
    as long as the reminder itself was not deleted. *)
Theorem due_is_monotone :
  forall (t : Store.table) (ops : list op) (now now' : DateTime.datetime)
         (i : Z) (chat message : string),
    DateTime.valid now = true -> DateTime.valid now' = true ->
    DateTime.leb now now' = true ->
    In (i, chat, message) (Store.get_due_reminders now t) ->
    Forall (fun o => o <> Delete i) ops ->
    In (i, chat, message) (Store.get_due_reminders now' (fst (run ops t))).
Proof.
  intros t ops now now' i chat message Hnow Hnow' Hle Hin Hops.
  unfold Store.get_due_reminders in *.
  apply in_map_iff in Hin. destruct Hin as [r [Hsel Hin]].
  apply filter_In in Hin. destruct Hin as [Hr Hdue].
  assert (Store.id r = i) as Hid by (unfold Store.selected in Hsel; congruence).
  apply in_map_iff. exists r. split; [exact Hsel|].
  apply filter_In. split.
  - apply run_keeps_row; [exact Hr | now rewrite Hid].
  - now apply (due_mono now now').
Qed.

Lemma due_is_monotone_witness :
  In (2, "43", "call mom")
     (Store.get_due_reminders (Scenario.T0_plus 30)
        (fst (run [Delete 1; Insert "42" "walk" "2025-06-01 12:00:40"]
                Scenario.two_due))).
Proof.
  apply (due_is_monotone Scenario.two_due
           [Delete 1; Insert "42" "walk" "2025-06-01 12:00:40"]
           (Scenario.T0_plus 11) (Scenario.T0_plus 30) 2 "43" "call mom").
  - reflexivity.
  - reflexivity.
  - reflexivity.
  - simpl. right. left. reflexivity.
  - repeat constructor; discriminate.
Defined.

(** ** The scheduler *)

Section Scheduler.

Variable telegram : list (string * outgoing) -> string -> outgoing -> bool.

Lemma dispatch_cons_ack (x : Z * string * string)
      (rest : list (Z * string * string)) (w : world) :
  telegram (outbox w) (fst (attempt x)) (snd (attempt x)) = true ->
  Store.bindable (fetched_id x) = true ->
  dispatch telegram (x :: rest) w
  = dispatch telegram rest
      (mkworld (Store.delete_reminder (fetched_id x) (db w))
               (outbox w ++ [attempt x])%list (gpt_calls w)).
Proof.
  destruct x as [[i c] m]. simpl. intros H Hi.
  unfold bind, send_message, delete_reminder. rewrite H.
  cbn [db outbox gpt_calls]. unfold fetched_id in Hi. simpl in Hi.
  rewrite Hi. reflexivity.
Qed.

Lemma dispatch_cons_overflow (x : Z * string * string)
      (rest : list (Z * string * string)) (w : world) :
  telegram (outbox w) (fst (attempt x)) (snd (attempt x)) = true ->
  Store.bindable (fetched_id x) = false ->
  dispatch telegram (x :: rest) w
  = (mkworld (db w) (outbox w ++ [attempt x])%list (gpt_calls w),
     Raise OverflowError).
Proof.
  destruct x as [[i c] m]. simpl. intros H Hi.
  unfold bind, send_message, delete_reminder. rewrite H.
  cbn [db outbox gpt_calls]. unfold fetched_id in Hi. simpl in Hi.
  rewrite Hi. reflexivity.
Qed.

Lemma dispatch_cons_fail (x : Z * string * string)
      (rest : list (Z * string * string)) (w : world) :
  telegram (outbox w) (fst (attempt x)) (snd (attempt x)) = false ->
  dispatch telegram (x :: rest) w
  = (mkworld (db w) (outbox w ++ [attempt x])%list (gpt_calls w),
     Raise TelegramError).
Proof.
  destruct x as [[i c] m]. simpl. intros H.
  unfold bind, send_message. rewrite H. reflexivity.
Qed.

(** The loop stops at the first row it cannot finish; what it did before
    is one attempt and one deletion per row, in order, and the row it
    stopped at was attempted. *)
Lemma dispatch_outcome (l : list (Z * string * string)) (w : world) :
  exists acked rest,
    l = (acked ++ rest)%list
    /\ match rest with
       | [] =>
           dispatch telegram l w
           = (mkworld (delete_all (map fetched_id acked) (db w))
                      (outbox w ++ map attempt acked)%list (gpt_calls w),
              Return tt)
       | stopped :: _ =>
           exists e,
             dispatch telegram l w
             = (mkworld (delete_all (map fetched_id acked) (db w))
                        (outbox w ++ map attempt (acked ++ [stopped]))%list
                        (gpt_calls w),
                Raise e)
       end.
Proof.
  revert w; induction l as [|x l IH]; intros w.
  - exists [], []. split; [reflexivity|]. simpl. unfold ret.
    rewrite app_nil_r. now destruct w.
  - destruct (telegram (outbox w) (fst (attempt x)) (snd (attempt x))) eqn:E.
    + destruct (Store.bindable (fetched_id x)) eqn:Ei.
      * rewrite (dispatch_cons_ack _ _ _ E Ei).
        destruct (IH (mkworld (Store.delete_reminder (fetched_id x) (db w))
                              (outbox w ++ [attempt x])%list (gpt_calls w)))
          as [acked [rest [Hl Hrun]]].
        exists (x :: acked), rest. split; [simpl; now rewrite Hl|].
        destruct rest as [|stopped rest]; simpl in Hrun; simpl.
        -- rewrite <- !app_assoc in Hrun. exact Hrun.
        -- destruct Hrun as [e Hrun]. exists e.
           rewrite <- !app_assoc in Hrun. exact Hrun.
      * rewrite (dispatch_cons_overflow _ _ _ E Ei).
        exists [], (x :: l). split; [reflexivity|]. now exists OverflowError.
    + rewrite (dispatch_cons_fail _ _ _ E).
      exists [], (x :: l). split; [reflexivity|]. now exists TelegramError.
Qed.

Lemma dispatch_app (l1 l2 : list (Z * string * string)) (w : world) :
  dispatch telegram (l1 ++ l2)%list w
  = match dispatch telegram l1 w with
    | (w1, Return _) => dispatch telegram l2 w1
    | (w1, Raise e) => (w1, Raise e)
    end.
Proof.
  revert w; induction l1 as [|x l1 IH]; intros w; [reflexivity|].
  destruct (telegram (outbox w) (fst (attempt x)) (snd (attempt x))) eqn:E.
  - destruct (Store.bindable (fetched_id x)) eqn:Ei.
    + simpl app. rewrite !(dispatch_cons_ack _ _ _ E Ei). apply IH.
    + simpl app. rewrite !(dispatch_cons_overflow _ _ _ E Ei). reflexivity.
  - simpl app. rewrite !(dispatch_cons_fail _ _ _ E). reflexivity.
Qed.

Lemma dispatch_returns (l : list (Z * string * string)) (w : world) :
  snd (dispatch telegram l w) = Return tt ->
  dispatch telegram l w
  = (mkworld (delete_all (map fetched_id l) (db w))
             (outbox w ++ map attempt l)%list (gpt_calls w),
     Return tt).
Proof.
  destruct (dispatch_outcome l w) as [acked [[|stopped rest] [Hl Hrun]]].
  - rewrite Hrun. simpl. rewrite app_nil_r in Hl. now subst.
  - destruct Hrun as [e Hrun]. rewrite Hrun. simpl. discriminate.
Qed.

(** With ids that fit 64 bits, the loop is steered by the answers of
    Telegram alone: the rows before the first refusal are accepted, one
    after the other, and deleted; the first refused row ends the loop. *)
Lemma dispatch_trace (l : list (Z * string * string)) (w : world) :
  Forall (fun x => Store.bindable (fetched_id x) = true) l ->
  exists acked rest,
    l = (acked ++ rest)%list
    /\ (forall pre x post,
           acked = (pre ++ x :: post)%list ->
           telegram (outbox w ++ map attempt pre)%list
                    (fst (attempt x)) (snd (attempt x)) = true)
    /\ match rest with
       | [] =>
           dispatch telegram l w
           = (mkworld (delete_all (map fetched_id acked) (db w))
                      (outbox w ++ map attempt acked)%list (gpt_calls w),
              Return tt)
       | failed :: _ =>
           telegram (outbox w ++ map attempt acked)%list
                    (fst (attempt failed)) (snd (attempt failed)) = false
           /\ dispatch telegram l w
              = (mkworld (delete_all (map fetched_id acked) (db w))
                         (outbox w ++ map attempt (acked ++ [failed]))%list
                         (gpt_calls w),
                 Raise TelegramError)
       end.
Proof.
  revert w; induction l as [|x l IH]; intros w Hl.
  - exists [], []. split; [reflexivity|]. split.
    + intros [|? ?] ? ? H; discriminate H.
    + simpl. unfold ret. rewrite app_nil_r. now destruct w.
  - apply Forall_cons_iff in Hl. destruct Hl as [Hx Hl].
    destruct (telegram (outbox w) (fst (attempt x)) (snd (attempt x))) eqn:E.
    + rewrite (dispatch_cons_ack _ _ _ E Hx).
      destruct (IH (mkworld (Store.delete_reminder (fetched_id x) (db w))
                            (outbox w ++ [attempt x])%list (gpt_calls w)) Hl)
        as [acked [rest [Heq [Hacc Hrun]]]].
      exists (x :: acked), rest. split; [simpl; now rewrite Heq|]. split.
      * intros [|y pre] z post H; simpl in H.
        -- injection H as <- _. simpl. now rewrite app_nil_r.
        -- injection H as <- H. specialize (Hacc pre z post H).
           cbn [outbox] in Hacc. simpl. now rewrite <- app_assoc in Hacc.
      * destruct rest as [|failed rest]; cbn [db outbox gpt_calls] in Hrun;
          simpl; rewrite <- !app_assoc in Hrun; exact Hrun.
    + rewrite (dispatch_cons_fail _ _ _ E).
      exists [], (x :: l). split; [reflexivity|]. split.
      * intros [|? ?] ? ? H; discriminate H.
      * simpl. rewrite app_nil_r. split; [exact E | reflexivity].
Qed.

Lemma delete_all_rows (ids : list Z) (t : Store.table) :
  Store.rows (delete_all ids t)
  = filter (fun r => negb (existsb (Z.eqb (Store.id r)) ids)) (Store.rows t).
Proof.
  revert t; induction ids as [|i ids IH]; intros t; simpl.
  - symmetry. now apply filter_all.
  - unfold delete_all in *. simpl. rewrite IH. simpl.
    clear IH. induction (Store.rows t) as [|r rs IHr]; simpl; [reflexivity|].
    destruct (Store.id r =? i); simpl; [exact IHr|].
    destruct (existsb (Z.eqb (Store.id r)) ids); simpl; now rewrite IHr.
Qed.

Lemma existsb_id_iff (i : Z) (ids : list Z) :
  existsb (Z.eqb i) ids = true <-> In i ids.
Proof.
  rewrite existsb_exists. split.
  - intros [j [Hj E]]. apply Z.eqb_eq in E. now subst.
  - intros H. exists i. split; [exact H | apply Z.eqb_refl].
Qed.

Lemma fetched_id_selected (rs : list Store.row) :
  map fetched_id (map Store.selected rs) = map Store.id rs.
Proof. rewrite map_map. reflexivity. Qed.

End Scheduler.

(** Rows selected from a table keyed by [id] are keyed by [id]. *)
Lemma selected_rows_keyed (keep : Store.row -> bool) (rs : list Store.row) :
  NoDup (map Store.id rs) -> NoDup (map Store.id (filter keep rs)).
Proof.
  induction rs as [|r rs IH]; simpl; intros Hkey; [constructor|].
  apply NoDup_cons_iff in Hkey. destruct Hkey as [Hr Hrs].
  destruct (keep r); simpl; [|now apply IH].
  constructor; [|now apply IH].
  intros Hin. apply Hr. apply in_map_iff in Hin.
  destruct Hin as [r' [Hid Hin]]. apply filter_In in Hin.
  apply in_map_iff. exists r'. tauto.
Qed.

Lemma filter_none {A : Type} (f : A -> bool) (l : list A) :
  (forall x, In x l -> f x = false) -> filter f l = [].
Proof.
  induction l as [|x l IH]; simpl; intros H; [reflexivity|].
  rewrite (H x (or_introl eq_refl)). apply IH. intros y Hy. apply H. now right.
Qed.

(** In a table keyed by [id], a row is determined by its id. *)
Lemma row_of_id (rs : list Store.row) (r r' : Store.row) :
  NoDup (map Store.id rs) -> In r rs -> In r' rs ->
  Store.id r = Store.id r' -> r = r'.
Proof.
  induction rs as [|a rs IH]; simpl; intros Hkey Hr Hr' E; [contradiction|].
  apply NoDup_cons_iff in Hkey. destruct Hkey as [Ha Hrs].
  destruct Hr as [->|Hr], Hr' as [->|Hr']; auto.
  - exfalso. apply Ha. rewrite E. now apply in_map.
  - exfalso. apply Ha. rewrite <- E. now apply in_map.
Qed.

Lemma check_reminders_unfold
      (telegram : list (string * outgoing) -> string -> outgoing -> bool)
      (now : DateTime.datetime) (w : world) :
  check_reminders telegram now w
  = dispatch telegram (Store.get_due_reminders now (db w)) w.
Proof. reflexivity. Qed.

(** C4. When Telegram refuses the text of a due reminder, the scan
    raises without deleting it: the row is still in the table, unchanged,
    and every later due query returns it, as long as nothing else
    deletes it. *)
Theorem failed_delivery_keeps_reminder :
  forall (telegram : list (string * outgoing) -> string -> outgoing -> bool)
         (w : world) (now now' : DateTime.datetime)
         (rpre rpost : list Store.row) (r : Store.row) (ops : list op),
    NoDup (map Store.id (Store.rows (db w))) ->
    filter (Store.due now) (Store.rows (db w)) = (rpre ++ r :: rpost)%list ->
    snd (dispatch telegram (map Store.selected rpre) w) = Return tt ->
    telegram (outbox (fst (dispatch telegram (map Store.selected rpre) w)))
             (Store.chat_id r) (Notification (Store.message r)) = false ->
    DateTime.valid now = true -> DateTime.valid now' = true ->
    DateTime.leb now now' = true ->
    Forall (fun o => o <> Delete (Store.id r)) ops ->
    snd (check_reminders telegram now w) = Raise TelegramError
    /\ In r (Store.rows (db (fst (check_reminders telegram now w))))
    /\ In (Store.selected r)
          (Store.get_due_reminders now'
             (fst (run ops (db (fst (check_reminders telegram now w)))))).
Proof.
  intros telegram w now now' rpre rpost r ops Hkey Hdue Hpre Hfail
         Hnow Hnow' Hle Hops.
  rewrite check_reminders_unfold. unfold Store.get_due_reminders.
  rewrite Hdue, map_app, dispatch_app.
  rewrite (dispatch_returns _ _ _ Hpre) in Hfail |- *.
  change (map Store.selected (r :: rpost))
    with (Store.selected r :: map Store.selected rpost).
  rewrite dispatch_cons_fail by exact Hfail. cbn [fst snd db].
  assert (In r (Store.rows (db w)) /\ Store.due now r = true) as [Hr Hd].
  { apply filter_In. rewrite Hdue. apply in_or_app. right. now left. }
  assert (In r (Store.rows (delete_all (map fetched_id (map Store.selected rpre))
                              (db w)))) as Hkept.
  { rewrite delete_all_rows. apply filter_In. split; [exact Hr|].
    apply negb_true_iff. apply not_true_iff_false. intros Hin.
    apply existsb_id_iff in Hin. rewrite fetched_id_selected in Hin.
    apply (selected_rows_keyed (Store.due now)) in Hkey.
    rewrite Hdue, map_app in Hkey. simpl in Hkey.
    apply NoDup_remove_2 in Hkey. apply Hkey, in_or_app. now left. }
  repeat split.
  - exact Hkept.
  - apply in_map_iff. exists r. split; [reflexivity|].
    apply filter_In. split.
    + now apply run_keeps_row.
    + now apply (due_mono now now').
Qed.

Lemma failed_delivery_keeps_reminder_witness :
  In (Store.mkrow 2 "43" "call mom" "2025-06-01 12:00:10")
     (Store.rows
        (db (fst (check_reminders Scenario.telegram_only_42
                    (Scenario.T0_plus 11)
                    (mkworld Scenario.two_due [] [])))))
  /\ In (2, "43", "call mom")
        (Store.get_due_reminders (Scenario.T0_plus 16)
           (fst (run [Insert "42" "walk" "2025-06-01 12:00:40"]
                   (db (fst (check_reminders Scenario.telegram_only_42
                               (Scenario.T0_plus 11)
                               (mkworld Scenario.two_due [] []))))))).
Proof.
  apply (failed_delivery_keeps_reminder Scenario.telegram_only_42
           (mkworld Scenario.two_due [] [])
           (Scenario.T0_plus 11) (Scenario.T0_plus 16)
           [Store.mkrow 1 "42" "drink water" "2025-06-01 12:00:10"] []
           (Store.mkrow 2 "43" "call mom" "2025-06-01 12:00:10")
           [Insert "42" "walk" "2025-06-01 12:00:40"]).
  - simpl. repeat constructor; simpl; intuition lia.
  - reflexivity.
  - reflexivity.
  - reflexivity.
  - reflexivity.
  - reflexivity.
  - reflexivity.
  - repeat constructor; discriminate.
Defined.

(** With Telegram down, a scan over two due reminders hands over the
    text of the first one only: the second reminder is returned by the
    due query and gets no delivery attempt in that scan. *)
Lemma second_reminder_not_attempted :
  Store.get_due_reminders (Scenario.T0_plus 11) Scenario.two_due
  = [(1, "42", "drink water"); (2, "43", "call mom")]
  /\ outbox (fst (check_reminders Scenario.telegram_down (Scenario.T0_plus 11)
                    (mkworld Scenario.two_due [] [])))
     = [("42", Notification "drink water")]
  /\ ~ In ("43", Notification "call mom")
          (outbox (fst (check_reminders Scenario.telegram_down
                          (Scenario.T0_plus 11)
                          (mkworld Scenario.two_due [] [])))).
Proof.
  repeat split.
  simpl. intros [H|[]]. discriminate H.
Qed.

(** C5, as the code has it.  In a table whose ids fit 64 bits, a scan
    walks the rows of the due query in order and is steered by the
    answers of Telegram: every row before the first refusal is handed
    over once, accepted and deleted before the next is handed over; the
    first refused row is handed over once, kept, and ends the scan with
    [TelegramError]; the rows after it are not attempted.  When Telegram
    accepts every text of the scan, the scan returns normally, every
    fetched row was handed over exactly once, no due row is left, and
    (ids being unique) the rows that were not due are all still there.
    In particular two reminders with the same due time are both fetched
    by one query and both gone after such a scan. *)
Theorem scan_attempts_until_first_failure :
  forall (telegram : list (string * outgoing) -> string -> outgoing -> bool)
         (w : world) (now : DateTime.datetime),
    Forall (fun r => Store.min_rowid <= Store.id r <= Store.max_rowid)
           (Store.rows (db w)) ->
    (exists acked rest,
        Store.get_due_reminders now (db w) = (acked ++ rest)%list
        /\ (forall pre x post,
               acked = (pre ++ x :: post)%list ->
               telegram (outbox w ++ map attempt pre)%list
                        (fst (attempt x)) (snd (attempt x)) = true)
        /\ db (fst (check_reminders telegram now w))
           = delete_all (map fetched_id acked) (db w)
        /\ match rest with
           | [] =>
               snd (check_reminders telegram now w) = Return tt
               /\ outbox (fst (check_reminders telegram now w))
                  = (outbox w ++ map attempt acked)%list
           | failed :: _ =>
               telegram (outbox w ++ map attempt acked)%list
                        (fst (attempt failed)) (snd (attempt failed)) = false
               /\ snd (check_reminders telegram now w) = Raise TelegramError
               /\ outbox (fst (check_reminders telegram now w))
                  = (outbox w ++ map attempt (acked ++ [failed]))%list
           end)
    /\ ((forall pre x post,
            Store.get_due_reminders now (db w) = (pre ++ x :: post)%list ->
            telegram (outbox w ++ map attempt pre)%list
                     (fst (attempt x)) (snd (attempt x)) = true) ->
        snd (check_reminders telegram now w) = Return tt
        /\ outbox (fst (check_reminders telegram now w))
           = (outbox w ++ map attempt (Store.get_due_reminders now (db w)))%list
        /\ db (fst (check_reminders telegram now w))
           = delete_all (map fetched_id (Store.get_due_reminders now (db w)))
                        (db w)
        /\ Store.get_due_reminders now (db (fst (check_reminders telegram now w)))
           = []
        /\ (NoDup (map Store.id (Store.rows (db w))) ->
            Store.rows (db (fst (check_reminders telegram now w)))
            = filter (fun r => negb (Store.due now r)) (Store.rows (db w)))
        /\ (forall r1 r2,
               In r1 (Store.rows (db w)) -> In r2 (Store.rows (db w)) ->
               Store.remind_time r1 = Store.remind_time r2 ->
               Store.due now r1 = true ->
               In (Store.selected r1) (Store.get_due_reminders now (db w))
               /\ In (Store.selected r2) (Store.get_due_reminders now (db w))
               /\ ~ In r1 (Store.rows (db (fst (check_reminders telegram now w))))
               /\ ~ In r2 (Store.rows (db (fst (check_reminders telegram now w)))))).
Proof.
  intros telegram w now Hrange. rewrite check_reminders_unfold.
  assert (Forall (fun x => Store.bindable (fetched_id x) = true)
                 (Store.get_due_reminders now (db w))) as Hbind.
  { apply Forall_forall. intros x Hx. unfold Store.get_due_reminders in Hx.
    apply in_map_iff in Hx. destruct Hx as [r [<- Hr]].
    apply filter_In in Hr. destruct Hr as [Hr _].
    rewrite Forall_forall in Hrange. specialize (Hrange r Hr).
    unfold Store.bindable. apply andb_true_iff.
    split; apply Z.leb_le; unfold fetched_id, Store.selected; simpl; lia. }
  destruct (dispatch_trace telegram (Store.get_due_reminders now (db w)) w Hbind)
    as [acked [rest [Hl [Hacc Hrun]]]].
  split.
  - exists acked, rest. split; [exact Hl|]. split; [exact Hacc|].
    destruct rest as [|failed rest].
    + rewrite Hrun. simpl. auto.
    + destruct Hrun as [Hfail Hrun]. rewrite Hrun. simpl. auto.
  - intros Hall.
    assert (rest = []) as ->.
    { destruct rest as [|failed rest]; [reflexivity|].
      destruct Hrun as [Hfail _].
      rewrite (Hall acked failed rest Hl) in Hfail. discriminate. }
    rewrite app_nil_r in Hl. subst acked. rewrite Hrun. cbn [fst snd db outbox].
    assert (forall r, In r (Store.rows (db w)) -> Store.due now r = true ->
                      existsb (Z.eqb (Store.id r))
                        (map fetched_id (Store.get_due_reminders now (db w)))
                      = true) as Hgone.
    { intros r Hr Hd. apply existsb_id_iff.
      unfold Store.get_due_reminders. rewrite fetched_id_selected.
      apply in_map. apply filter_In. now split. }
    split; [reflexivity|]. split; [reflexivity|]. split; [reflexivity|].
    split; [|split].
    + unfold Store.get_due_reminders at 1. rewrite delete_all_rows.
      rewrite filter_none; [reflexivity|].
      intros r Hr. apply filter_In in Hr. destruct Hr as [Hr Hkept].
      destruct (Store.due now r) eqn:Hd; [|reflexivity].
      rewrite (Hgone r Hr Hd) in Hkept. discriminate.
    + intros Hkey. rewrite delete_all_rows. apply filter_ext_in.
      intros r Hr. f_equal.
      destruct (Store.due now r) eqn:Hd; [now apply Hgone|].
      apply not_true_iff_false. intros Hin. apply existsb_id_iff in Hin.
      unfold Store.get_due_reminders in Hin.
      rewrite fetched_id_selected in Hin. apply in_map_iff in Hin.
      destruct Hin as [r' [Hid Hr']]. apply filter_In in Hr'.
      destruct Hr' as [Hr' Hd'].
      rewrite (row_of_id _ r' r Hkey Hr' Hr Hid) in Hd'.
      congruence.
    + intros r1 r2 Hr1 Hr2 Htime Hd1.
      assert (Store.due now r2 = true) as Hd2
          by (unfold Store.due in *; now rewrite <- Htime).
      unfold Store.get_due_reminders at 1 2.
      repeat split.
      * apply in_map, filter_In. now split.
      * apply in_map, filter_In. now split.
      * rewrite delete_all_rows. intros Hin. apply filter_In in Hin.
        rewrite (Hgone r1 Hr1 Hd1) in Hin. destruct Hin; discriminate.
      * rewrite delete_all_rows. intros Hin. apply filter_In in Hin.
        rewrite (Hgone r2 Hr2 Hd2) in Hin. destruct Hin; discriminate.
Qed.

Lemma scan_attempts_until_first_failure_witness :
  outbox (fst (check_reminders Scenario.telegram_up (Scenario.T0_plus 11)
                 (mkworld Scenario.two_due [] [])))
  = [("42", Notification "drink water"); ("43", Notification "call mom")]
  /\ Store.rows (db (fst (check_reminders Scenario.telegram_up
                            (Scenario.T0_plus 11)
                            (mkworld Scenario.two_due [] []))))
     = [].
Proof.
  destruct (scan_attempts_until_first_failure Scenario.telegram_up
              (mkworld Scenario.two_due [] []) (Scenario.T0_plus 11))
    as [_ H].
  - simpl. unfold Store.min_rowid, Store.max_rowid.
    repeat constructor; simpl; lia.
  - destruct H as [_ [Hout [_ [_ [Hrows _]]]]].
    + intros pre x post _. reflexivity.
    + split; [exact Hout|].
      apply Hrows. simpl. repeat constructor; simpl; intuition lia.
Defined.

(** ** The chat handlers *)

Lemma lower_append (a b : string) :
  PyStr.lower (a ++ b) = (PyStr.lower a ++ PyStr.lower b)%string.
Proof. induction a as [|c a IH]; simpl; [reflexivity | now rewrite IH]. Qed.

Lemma lower_split (s x y : string) :
  PyStr.lower s = (x ++ y)%string ->
  exists s1 s2, s = (s1 ++ s2)%string
                /\ PyStr.lower s1 = x /\ PyStr.lower s2 = y.
Proof.
  revert s; induction x as [|a x IH]; intros s H.
  - exists EmptyString, s. auto.
  - destruct s as [|c s]; simpl in H; [discriminate|].
    injection H as Hc Hs. destruct (IH s Hs) as [s1 [s2 [-> [H1 H2]]]].
    exists (String c s1), s2. simpl. rewrite H1, Hc. auto.
Qed.

(** [sub in text.lower()] holds exactly when some stretch of [text]
    lowers to [sub]. *)
Lemma contains_lower_iff (sub text : string) :
  PyStr.contains sub (PyStr.lower text) = true
  <-> exists a v b, text = (a ++ v ++ b)%string /\ PyStr.lower v = sub.
Proof.
  rewrite contains_iff. split.
  - intros [x [y H]].
    apply lower_split in H. destruct H as [a [rest [-> [_ H]]]].
    apply lower_split in H. destruct H as [v [b [-> [Hv _]]]].
    now exists a, v, b.
  - intros [a [v [b [-> Hv]]]].
    exists (PyStr.lower a), (PyStr.lower b).
    now rewrite !lower_append, Hv.
Qed.

(** C10. A plain text in which no stretch reads "remind", whatever the
    case of its letters, leaves everything as it was: nothing is
    submitted to GPT, nothing is sent, the table is untouched. *)
Theorem text_without_remind_is_ignored :
  forall (gpt : string -> option (string * option string))
         (dateparser_parse : string -> option DateTime.datetime)
         (telegram : list (string * outgoing) -> string -> outgoing -> bool)
         (now : DateTime.datetime) (chat text : string) (w : world),
    (forall a v b, text = (a ++ v ++ b)%string -> PyStr.lower v <> "remind") ->
    handle_text_reminder gpt dateparser_parse telegram now chat text w
    = (w, Return tt).
Proof.
  intros gpt dateparser_parse telegram now chat text w Hno.
  unfold handle_text_reminder.
  destruct (PyStr.contains "remind" (PyStr.lower text)) eqn:E; [|reflexivity].
  apply contains_lower_iff in E. destruct E as [a [v [b [Htext Hv]]]].
  now destruct (Hno a v b Htext).
Qed.

Lemma text_without_remind_is_ignored_witness :
  handle_text_reminder Scenario.gpt_down Scenario.no_date Scenario.telegram_up
    Scenario.T0 "42" "good morning in 5 minutes" Scenario.fresh
  = (Scenario.fresh, Return tt).
Proof.
  apply (text_without_remind_is_ignored Scenario.gpt_down Scenario.no_date
           Scenario.telegram_up Scenario.T0 "42" "good morning in 5 minutes"
           Scenario.fresh).
  intros a v b Htext Hv.
  assert (PyStr.contains "remind" (PyStr.lower "good morning in 5 minutes")
          = true) as E
      by (apply contains_lower_iff; now exists a, v, b).
  vm_compute in E. discriminate E.
Defined.

(** ** Splitting and trimming *)

Lemma length_lower (s : string) :
  String.length (PyStr.lower s) = String.length s.
Proof. induction s as [|c s IH]; simpl; [reflexivity | now rewrite IH]. Qed.

Lemma partition_some (sep s a b : string) :
  PyStr.partition sep s = Some (a, b) -> first_split sep a b s.
Proof.
  revert a b; induction s as [|c s IH]; intros a b.
  - unfold PyStr.partition.
    destruct (prefix sep EmptyString) eqn:E; [|discriminate].
    intros [= <- <-]. apply prefix_iff in E. destruct E as [r Hr].
    split; [|simpl; intros; lia].
    simpl. rewrite Hr at 2. now rewrite drop_append.
  - unfold PyStr.partition; fold PyStr.partition.
    destruct (prefix sep (String c s)) eqn:E.
    + intros [= <- <-]. apply prefix_iff in E. destruct E as [r Hr].
      split; [|simpl; intros; lia].
      simpl. rewrite Hr at 2. now rewrite drop_append.
    + destruct (PyStr.partition sep s) as [[a0 b0]|]; [|discriminate].
      intros [= <- <-]. destruct (IH a0 b0 eq_refl) as [Hs Hmin].
      split; [simpl; now rewrite <- Hs|].
      intros [|c' a'] b' H; simpl in H.
      * assert (prefix sep (String c s) = true) as E'
            by (apply prefix_iff; now exists b').
        congruence.
      * injection H as _ H. simpl. apply le_n_S. now apply (Hmin a' b').
Qed.

Lemma partition_none (sep s : string) :
  PyStr.partition sep s = None -> PyStr.contains sep s = false.
Proof.
  induction s as [|c s IH].
  - unfold PyStr.partition. rewrite contains_empty.
    now destruct (prefix sep EmptyString).
  - unfold PyStr.partition; fold PyStr.partition. rewrite contains_cons.
    destruct (prefix sep (String c s)); [discriminate|].
    destruct (PyStr.partition sep s) as [[a0 b0]|]; [discriminate|].
    intros _. now apply IH.
Qed.

(** What the source computes as the message of the fallback. *)
Lemma split_message (text : string) :
  (PyStr.contains "to" text = true
   /\ exists a b, first_split "to" a b text
                  /\ PyStr.last_item (PyStr.split1 "to" text) = b)
  \/ (PyStr.contains "to" text = false
      /\ forall a b, text <> (a ++ "to" ++ b)%string).
Proof.
  destruct (PyStr.contains "to" text) eqn:E.
  - left. split; [reflexivity|].
    unfold PyStr.split1.
    destruct (PyStr.partition "to" text) as [[a b]|] eqn:P.
    + exists a, b. split; [now apply partition_some | reflexivity].
    + apply partition_none in P. congruence.
  - right. split; [reflexivity|]. intros a b H.
    assert (PyStr.contains "to" text = true) as E'
        by (apply contains_iff; now exists a, b).
    congruence.
Qed.

Lemma lstrip_spec (s : string) :
  exists l, s = (l ++ PyStr.lstrip s)%string /\ blank l = true
            /\ forall c r, PyStr.lstrip s = String c r -> PyStr.isspace c = false.
Proof.
  induction s as [|c s [l [Hs [Hl Hhead]]]]; simpl.
  - exists EmptyString. repeat split. intros; discriminate.
  - destruct (PyStr.isspace c) eqn:E.
    + exists (String c l). simpl. rewrite E, <- Hs. auto.
    + exists EmptyString. repeat split. intros c' r [= <- <-]. exact E.
Qed.

Lemma rstrip_spec (s : string) :
  exists r, s = (PyStr.rstrip s ++ r)%string /\ blank r = true
            /\ forall p c, PyStr.rstrip s = (p ++ String c EmptyString)%string ->
                           PyStr.isspace c = false.
Proof.
  induction s as [|c s [r [Hs [Hr Hlast]]]].
  - exists EmptyString. repeat split. intros [|? ?] ? H; discriminate H.
  - simpl. destruct (PyStr.rstrip s) as [|c' t] eqn:E.
    + simpl in Hs. subst r. destruct (PyStr.isspace c) eqn:Ec.
      * exists (String c s). simpl. rewrite Ec, Hr. repeat split.
        intros [|? ?] ? H; discriminate H.
      * exists s. repeat split; [exact Hr|].
        intros [|? [|? ?]] x H; simpl in H; try discriminate H.
        injection H as <-. exact Ec.
    + exists r. split; [|split; [exact Hr|]].
      * simpl. simpl in Hs. now rewrite <- Hs.
      * intros [|x p] y H; simpl in H; [discriminate H|].
        injection H as _ H. now apply (Hlast p y).
Qed.

(** [strip] removes white space at both ends and nothing else. *)
Lemma strip_spec (s : string) :
  exists l r,
    s = (l ++ PyStr.strip s ++ r)%string /\ blank l = true /\ blank r = true
    /\ (forall c t, PyStr.strip s = String c t -> PyStr.isspace c = false)
    /\ (forall p c, PyStr.strip s = (p ++ String c EmptyString)%string ->
                    PyStr.isspace c = false).
Proof.
  unfold PyStr.strip.
  destruct (lstrip_spec s) as [l [Hs [Hl Hhead]]].
  destruct (rstrip_spec (PyStr.lstrip s)) as [r [Ht [Hr Hlast]]].
  exists l, r. repeat split; auto.
  - rewrite <- Ht. exact Hs.
  - intros c t H. rewrite H in Ht.
    destruct (PyStr.lstrip s) as [|c0 t0]; [discriminate Ht|].
    simpl in Ht. injection Ht as <- _. now apply (Hhead c0 t0).
Qed.

(** ** The pattern *)

Lemma literal_sound (p s m r : string) :
  Re.literal p s = Some (m, r) ->
  s = (m ++ r)%string /\ PyStr.lower m = p.
Proof.
  revert s m r; induction p as [|a p IH]; intros s m r; simpl.
  - intros [= <- <-]. auto.
  - destruct s as [|c s]; [discriminate|].
    destruct (Ascii.eqb_spec (PyStr.lower_char c) a) as [Hc|]; [|discriminate].
    destruct (Re.literal p s) as [[m0 r0]|] eqn:E; [|discriminate].
    intros [= <- <-]. destruct (IH s m0 r0 E) as [-> <-].
    simpl. now rewrite Hc.
Qed.

Lemma literal_complete (m r : string) :
  Re.literal (PyStr.lower m) (m ++ r) = Some (m, r).
Proof.
  induction m as [|c m IH]; simpl; [reflexivity|].
  now rewrite Ascii.eqb_refl, IH.
Qed.

Lemma literal_mismatch (a : ascii) (p : string) (c : ascii) (s : string) :
  PyStr.lower_char c <> a -> Re.literal (String a p) (String c s) = None.
Proof.
  intros H. simpl.
  now destruct (Ascii.eqb_spec (PyStr.lower_char c) a).
Qed.

Lemma digits_sound (s d r : string) :
  Re.digits s = (d, r) -> s = (d ++ r)%string /\ PyStr.all_digits d = true.
Proof.
  revert d r; induction s as [|c s IH]; intros d r; simpl.
  - intros [= <- <-]. auto.
  - destruct (PyStr.isdigit c) eqn:Ec.
    + destruct (Re.digits s) as [d0 r0]. intros [= <- <-].
      destruct (IH d0 r0 eq_refl) as [-> H]. simpl. now rewrite Ec.
    + intros [= <- <-]. auto.
Qed.

Lemma digits_complete (d r : string) :
  PyStr.all_digits d = true ->
  (forall c r', r = String c r' -> PyStr.isdigit c = false) ->
  Re.digits (d ++ r) = (d, r).
Proof.
  intros Hd Hr. induction d as [|c d IH]; simpl.
  - destruct r as [|c r']; [reflexivity|]. simpl. now rewrite (Hr c r' eq_refl).
  - simpl in Hd. apply andb_true_iff in Hd. destruct Hd as [Hc Hd].
    now rewrite Hc, (IH Hd).
Qed.

(** A unit word is accepted by the alternation, which returns it. *)
Lemma alternation_complete (u rest : string) :
  In (PyStr.lower u) ["second"; "minute"; "hour"] ->
  Re.alternation Re.units (u ++ rest) = Some (u, rest).
Proof.
  intros [H|[H|[H|[]]]]; unfold Re.units.
  - cbn [Re.alternation]. rewrite H at 1. now rewrite literal_complete.
  - destruct u as [|c u]; [discriminate H|].
    injection H as Hc Hu.
    cbn [Re.alternation append].
    rewrite !literal_mismatch by (rewrite <- Hc; discriminate).
    change (String c (u ++ rest)) with (String c u ++ rest)%string.
    replace "minute" with (PyStr.lower (String c u))
      by (simpl; now rewrite <- Hc, <- Hu).
    now rewrite literal_complete.
  - destruct u as [|c u]; [discriminate H|].
    injection H as Hc Hu.
    cbn [Re.alternation append].
    rewrite !literal_mismatch by (rewrite <- Hc; discriminate).
    change (String c (u ++ rest)) with (String c u ++ rest)%string.
    replace "hour" with (PyStr.lower (String c u))
      by (simpl; now rewrite <- Hc, <- Hu).
    now rewrite literal_complete.
Qed.

(** Whatever the alternation accepts begins with a unit word. *)
Lemma alternation_sound (s g r : string) :
  Re.alternation Re.units s = Some (g, r) ->
  exists u rest, s = (u ++ rest)%string
                 /\ In (PyStr.lower u) ["second"; "minute"; "hour"].
Proof.
  unfold Re.units. cbn [Re.alternation].
  assert (forall p q m r0,
             Re.literal (p ++ q) s = Some (m, r0) ->
             exists u rest, s = (u ++ rest)%string /\ PyStr.lower u = p)
    as Hstem.
  { intros p q m r0 E. apply literal_sound in E. destruct E as [-> E].
    apply lower_split in E. destruct E as [u [v [-> [Hu _]]]].
    exists u, (v ++ r0)%string. split; [apply append_assoc | exact Hu]. }
  destruct (Re.literal "second" s) as [[m r0]|] eqn:E1.
  { intros _. destruct (Hstem "second" "" m r0 E1) as [u [rest [Hs Hu]]].
    exists u, rest. rewrite Hu. simpl. auto. }
  destruct (Re.literal "seconds" s) as [[m r0]|] eqn:E2.
  { intros _. destruct (Hstem "second" "s" m r0 E2) as [u [rest [Hs Hu]]].
    exists u, rest. rewrite Hu. simpl. auto. }
  destruct (Re.literal "minute" s) as [[m r0]|] eqn:E3.
  { intros _. destruct (Hstem "minute" "" m r0 E3) as [u [rest [Hs Hu]]].
    exists u, rest. rewrite Hu. simpl. auto. }
  destruct (Re.literal "minutes" s) as [[m r0]|] eqn:E4.
  { intros _. destruct (Hstem "minute" "s" m r0 E4) as [u [rest [Hs Hu]]].
    exists u, rest. rewrite Hu. simpl. auto. }
  destruct (Re.literal "hour" s) as [[m r0]|] eqn:E5.
  { intros _. destruct (Hstem "hour" "" m r0 E5) as [u [rest [Hs Hu]]].
    exists u, rest. rewrite Hu. simpl. auto. }
  destruct (Re.literal "hours" s) as [[m r0]|] eqn:E6; [|discriminate].
  intros _. destruct (Hstem "hour" "s" m r0 E6) as [u [rest [Hs Hu]]].
  exists u, rest. rewrite Hu. simpl. auto.
Qed.

Lemma match_at_complete (kw ds u rest : string) :
  PyStr.lower kw = "in" -> ds <> EmptyString -> PyStr.all_digits ds = true ->
  In (PyStr.lower u) ["second"; "minute"; "hour"] ->
  Re.match_at (kw ++ " " ++ ds ++ " " ++ u ++ rest) = Some (ds, u).
Proof.
  intros Hkw Hne Hds Hu. unfold Re.match_at.
  replace (kw ++ " " ++ ds ++ " " ++ u ++ rest)%string
    with ((kw ++ " ") ++ ds ++ " " ++ u ++ rest)%string
    by (now rewrite append_assoc).
  replace "in " with (PyStr.lower (kw ++ " "))
    by (now rewrite lower_append, Hkw).
  rewrite literal_complete.
  rewrite digits_complete;
    [|exact Hds | intros c r' [= <- _]; reflexivity].
  destruct ds as [|d ds]; [congruence|].
  change (Re.literal " " (" " ++ u ++ rest))
    with (Re.literal (PyStr.lower " ") (" " ++ u ++ rest)).
  rewrite literal_complete.
  now rewrite alternation_complete.
Qed.

Lemma match_at_sound (s g1 g2 : string) :
  Re.match_at s = Some (g1, g2) -> exists ds u, occurrence EmptyString ds u s.
Proof.
  unfold Re.match_at.
  destruct (Re.literal "in " s) as [[m1 s1]|] eqn:E1; [|discriminate].
  destruct (Re.digits s1) as [d s2] eqn:E2.
  destruct d as [|c d]; [discriminate|].
  destruct (Re.literal " " s2) as [[m3 s3]|] eqn:E3; [|discriminate].
  destruct (Re.alternation Re.units s3) as [[g r]|] eqn:E4; [|discriminate].
  intros _.
  apply literal_sound in E1. destruct E1 as [-> E1].
  change "in " with ("in" ++ " ")%string in E1.
  apply lower_split in E1. destruct E1 as [kw [sp [-> [Hkw Hsp]]]].
  apply digits_sound in E2. destruct E2 as [-> Hd].
  apply literal_sound in E3. destruct E3 as [-> E3].
  apply alternation_sound in E4. destruct E4 as [u [rest [-> Hu]]].
  assert (sp = " ") as ->.
  { destruct sp as [|x [|? ?]]; try discriminate Hsp.
    simpl in Hsp. injection Hsp as Hx.
    unfold PyStr.lower_char in Hx.
    destruct (_ || _)%bool eqn:Eb in Hx; [|now subst].
    exfalso. revert Eb Hx.
    destruct x as [[] [] [] [] [] [] [] []]; vm_compute; congruence. }
  assert (m3 = " ") as ->.
  { destruct m3 as [|x [|? ?]]; try discriminate E3.
    simpl in E3. injection E3 as Hx.
    unfold PyStr.lower_char in Hx.
    destruct (_ || _)%bool eqn:Eb in Hx; [|now subst].
    exfalso. revert Eb Hx.
    destruct x as [[] [] [] [] [] [] [] []]; vm_compute; congruence. }
  exists (String c d), u, kw, rest. repeat split; auto.
  - simpl. now rewrite !append_assoc.
  - discriminate.
Qed.

Lemma search_unfold (s : string) :
  Re.search s
  = match Re.match_at s with
    | Some g => Some g
    | None =>
        match s with
        | EmptyString => None
        | String _ s' => Re.search s'
        end
    end.
Proof. destruct s; reflexivity. Qed.

Lemma occurrence_tail (c : ascii) (pre ds u text : string) :
  occurrence pre ds u text <-> occurrence (String c pre) ds u (String c text).
Proof.
  unfold occurrence. split; intros [kw [rest [H Hrest]]]; exists kw, rest;
    (split; [|exact Hrest]); simpl in *; congruence.
Qed.

(** [re.search] returns the groups of the leftmost occurrence. *)
Lemma search_leftmost (pre ds u text : string) :
  leftmost pre ds u text -> Re.search text = Some (ds, u).
Proof.
  revert text; induction pre as [|c pre IH]; intros text [Hocc Hmin];
    rewrite search_unfold.
  - destruct Hocc as [kw [rest [-> [Hkw [Hne [Hds Hu]]]]]].
    change (EmptyString ++ kw ++ " " ++ ds ++ " " ++ u ++ rest)%string
      with (kw ++ " " ++ ds ++ " " ++ u ++ rest)%string.
    now rewrite match_at_complete.
  - destruct (Re.match_at text) as [[g1 g2]|] eqn:E.
    + apply match_at_sound in E. destruct E as [ds' [u' E]].
      specialize (Hmin _ _ _ E). simpl in Hmin. lia.
    + assert (exists tail, text = String c tail) as [tail ->].
      { destruct Hocc as [kw [rest [-> _]]]. simpl. eauto. }
      apply IH. split.
      * now apply (occurrence_tail c).
      * intros pre' ds' u' H. apply (occurrence_tail c) in H.
        specialize (Hmin _ _ _ H). simpl in Hmin. lia.
Qed.

(** Conversely a successful search found an occurrence. *)
Lemma search_sound (text g1 g2 : string) :
  Re.search text = Some (g1, g2) -> exists pre ds u, occurrence pre ds u text.
Proof.
  induction text as [|c text IH]; rewrite search_unfold.
  - destruct (Re.match_at EmptyString) as [[a b]|] eqn:E; [|discriminate].
    intros _. apply match_at_sound in E. destruct E as [ds [u E]].
    now exists EmptyString, ds, u.
  - destruct (Re.match_at (String c text)) as [[a b]|] eqn:E.
    + intros _. apply match_at_sound in E. destruct E as [ds [u E]].
      now exists EmptyString, ds, u.
    + intros H. destruct (IH H) as [pre [ds [u Hocc]]].
      exists (String c pre), ds, u. now apply occurrence_tail.
Qed.

Lemma search_complete (pre ds u text : string) :
  occurrence pre ds u text -> Re.search text <> None.
Proof.
  revert text; induction pre as [|c pre IH]; intros text Hocc;
    rewrite search_unfold.
  - destruct Hocc as [kw [rest [-> [Hkw [Hne [Hds Hu]]]]]].
    change (EmptyString ++ kw ++ " " ++ ds ++ " " ++ u ++ rest)%string
      with (kw ++ " " ++ ds ++ " " ++ u ++ rest)%string.
    rewrite match_at_complete by assumption. discriminate.
  - destruct (Re.match_at text); [discriminate|].
    assert (exists tail, text = String c tail) as [tail ->].
    { destruct Hocc as [kw [rest [-> _]]]. simpl. eauto. }
    apply IH. now apply (occurrence_tail c).
Qed.

(** The search fails exactly on the texts without the phrase. *)
Lemma search_none_iff (text : string) :
  Re.search text = None <-> forall pre ds u, ~ occurrence pre ds u text.
Proof.
  split.
  - intros E pre ds u Hocc. now apply (search_complete _ _ _ _ Hocc).
  - intros Hno. destruct (Re.search text) as [[g1 g2]|] eqn:E; [|reflexivity].
    apply search_sound in E. destruct E as [pre [ds [u Hocc]]].
    now destruct (Hno pre ds u).
Qed.

(** ** Calendar arithmetic *)

Section Calendar.

Import DateTime.

Lemma month_of_day (n : Z) (leap : bool) :
  0 <= n < 365 + (if leap then 1 else 0) ->
  let m := Z.shiftr (n + 50) 5 in
  let preceding := item DAYS_BEFORE_MONTH m + (if (2 <? m) && leap then 1 else 0) in
  let '(m', p') :=
    if n <? preceding
    then (m - 1, preceding - (item DAYS_IN_MONTH (m - 1) + (if (m - 1 =? 2) && leap then 1 else 0)))
    else (m, preceding) in
  1 <= m' <= 12
  /\ p' = item DAYS_BEFORE_MONTH m' + (if (2 <? m') && leap then 1 else 0)
  /\ 1 <= n - p' + 1 <= (if (m' =? 2) && leap then 29 else item DAYS_IN_MONTH m').
Proof.
  intros Hn. rewrite Z.shiftr_div_pow2 by lia.
  change (2 ^ 5) with 32.
  assert (1 <= (n + 50) / 32 <= 12) as Hm by (destruct leap; divlia).
  assert (32 * ((n + 50) / 32) <= n + 50 < 32 * ((n + 50) / 32) + 32) as Hq by divlia.
  remember ((n + 50) / 32) as m eqn:Em. clear Em.
  assert (m = 1 \/ m = 2 \/ m = 3 \/ m = 4 \/ m = 5 \/ m = 6 \/ m = 7
          \/ m = 8 \/ m = 9 \/ m = 10 \/ m = 11 \/ m = 12) as H by lia.
  cbv zeta.
  repeat (destruct H as [H|H]);
  subst m; destruct leap; table;
    match goal with |- context [?a <? ?b] => destruct (Z.ltb_spec a b) end;
    table; try lia.
Qed.

Lemma is_leap_iff (y : Z) :
  is_leap y = true <-> (y mod 4 = 0 /\ (y mod 100 <> 0 \/ y mod 400 = 0)).
Proof.
  unfold is_leap.
  rewrite andb_true_iff, orb_true_iff, negb_true_iff, !Z.eqb_eq, Z.eqb_neq.
  tauto.
Qed.

Lemma year_of_day (n0 : Z) :
  0 <= n0 < MAXORDINAL ->
  let n400 := n0 / DI400Y in
  let r1 := n0 mod DI400Y in
  let n100 := r1 / DI100Y in
  let r2 := r1 mod DI100Y in
  let n4 := r2 / DI4Y in
  let r3 := r2 mod DI4Y in
  let n1 := r3 / 365 in
  let r4 := r3 mod 365 in
  let y := n400 * 400 + 1 + n100 * 100 + n4 * 4 + n1 in
  if (n1 =? 4) || (n100 =? 4)
  then 1 <= y - 1 <= 9999 /\ is_leap (y - 1) = true
       /\ days_before_year (y - 1) + 365 = n0
  else 1 <= y <= 9999
       /\ is_leap y = ((n1 =? 3) && (negb (n4 =? 24) || (n100 =? 3)))
       /\ days_before_year y + r4 = n0
       /\ 0 <= r4 < 365.
Proof.
  intros Hn. unfold MAXORDINAL, DI400Y, DI100Y, DI4Y in *. cbv zeta.
  destruct ((n0 mod 146097 mod 36524 mod 1461 / 365 =? 4)
            || (n0 mod 146097 / 36524 =? 4)) eqn:E.
  - apply orb_true_iff in E. rewrite !Z.eqb_eq in E.
    split; [divlia|]. split.
    + apply is_leap_iff. divlia.
    + unfold days_before_year. divlia.
  - apply orb_false_iff in E. rewrite !Z.eqb_neq in E.
    split; [divlia|]. split; [|split; [unfold days_before_year; divlia | divlia]].
    apply eq_true_iff_eq. rewrite is_leap_iff.
    rewrite andb_true_iff, orb_true_iff, negb_true_iff, !Z.eqb_eq, Z.eqb_neq.
    divlia.
Qed.

Lemma ord2ymd_spec (n : Z) :
  1 <= n <= MAXORDINAL ->
  let '(y, m, d) := ord2ymd n in
  1 <= y <= 9999 /\ 1 <= m <= 12 /\ 1 <= d <= days_in_month y m
  /\ ymd2ord y m d = n.
Proof.
  intros Hn. unfold ord2ymd. cbv zeta.
  assert (0 <= n - 1 < MAXORDINAL) as Hn0 by lia.
  pose proof (year_of_day (n - 1) Hn0) as Hy. cbv zeta in Hy.
  destruct ((_ =? 4) || (_ =? 4)).
  - destruct Hy as [Hy [Hleap Hd]].
    unfold ymd2ord, days_in_month, days_before_month. rewrite Hleap. table.
    lia.
  - destruct Hy as [Hy [Hleap [Hd Hr]]]. rewrite <- Hleap.
    match type of Hr with 0 <= ?r < _ =>
      match type of Hleap with is_leap ?y = _ =>
        assert (0 <= r < 365 + (if is_leap y then 1 else 0)) as Hr'
          by (destruct (is_leap y); lia);
        pose proof (month_of_day r (is_leap y) Hr') as Hm
      end
    end.
    cbv zeta in Hm. revert Hm.
    destruct (_ <? _); intros [Hm [Hp Hday]];
      unfold ymd2ord, days_in_month, days_before_month;
      (split; [exact Hy|]); (split; [exact Hm|]); (split; [exact Hday|]);
      lia.
Qed.

Lemma days_before_month_bound (y m : Z) :
  1 <= m <= 12 -> 0 <= days_before_month y m <= 335.
Proof.
  intros Hm. unfold days_before_month.
  assert (m = 1 \/ m = 2 \/ m = 3 \/ m = 4 \/ m = 5 \/ m = 6 \/ m = 7
          \/ m = 8 \/ m = 9 \/ m = 10 \/ m = 11 \/ m = 12) as H by lia.
  repeat (destruct H as [H|H]); subst m; destruct (is_leap y); table; lia.
Qed.

Lemma toordinal_bound (d : datetime) :
  valid d = true -> 1 <= toordinal d <= 4000000.
Proof.
  intros Hv. apply valid_fields in Hv.
  pose proof (days_in_month_bound (year d) (month d)).
  pose proof (days_before_month_bound (year d) (month d)).
  unfold toordinal, ymd2ord, days_before_year. divlia.
Qed.

Lemma new_timedelta_offset (s mi h : Z) :
  0 <= s + mi * 60 + h * 3600 < MAXORDINAL * 86400 ->
  new_timedelta 0 s 0 mi h
  = Return (mktimedelta ((s + mi * 60 + h * 3600) / 86400)
                        ((s + mi * 60 + h * 3600) mod 86400) 0).
Proof.
  intros Hv. unfold new_timedelta, MAXORDINAL in *.
  change (0 / 1000000) with 0. change (0 mod 1000000) with 0.
  rewrite Z.add_0_r, Z.add_0_l.
  destruct (Z.ltb_spec 999999999 (Z.abs ((s + mi * 60 + h * 3600) / 86400)));
    [exfalso; divlia | reflexivity].
Qed.

Lemma new_timedelta_normal (d s us mi h : Z) :
  Z.abs (d + (s + mi * 60 + h * 3600 + us / 1000000) / 86400) <= 999999999 ->
  new_timedelta d s us mi h
  = Return (mktimedelta
              (d + (s + mi * 60 + h * 3600 + us / 1000000) / 86400)
              ((s + mi * 60 + h * 3600 + us / 1000000) mod 86400)
              (us mod 1000000)).
Proof.
  intros H. unfold new_timedelta.
  destruct (Z.ltb_spec 999999999
              (Z.abs (d + (s + mi * 60 + h * 3600 + us / 1000000) / 86400)));
    [lia | reflexivity].
Qed.

Lemma add_spec (now : datetime) (other : timedelta) :
  valid now = true ->
  0 <= days other -> 0 <= seconds other < 86400 -> microseconds other = 0 ->
  total_seconds now + days other * 86400 + seconds other < MAXORDINAL * 86400 ->
  exists due,
    add now other = Return due /\ valid due = true
    /\ total_seconds due
       = total_seconds now + days other * 86400 + seconds other
    /\ microsecond due = microsecond now.
Proof.
  intros Hv Hd Hs Hus Hrange.
  pose proof (toordinal_bound now Hv) as Hord.
  pose proof (valid_fields now Hv) as [_ [_ [_ [Hh [Hmi [Hse Hu]]]]]].
  unfold total_seconds, MAXORDINAL in Hrange.
  unfold add.
  rewrite new_timedelta_normal by divlia.
  cbn [days seconds microseconds]. rewrite Hus.
  rewrite new_timedelta_normal by divlia.
  cbn [days seconds microseconds].
  match goal with |- context [ord2ymd ?X] => set (D := X) end.
  match goal with |- context [?X / 3600] => set (secs := X) end.
  assert (1 <= D <= MAXORDINAL) as HD by (unfold D, MAXORDINAL in *; divlia).
  assert (0 <= secs < 86400) as Hsecs by (unfold secs; divlia).
  assert ((D - 1) * 86400 + secs
          = (toordinal now - 1) * 86400 + hour now * 3600 + minute now * 60
            + second now + days other * 86400 + seconds other) as Htot
      by (unfold D, secs; divlia).
  assert ((microsecond now + 0) mod 1000000 = microsecond now) as Hmicro
      by divlia.
  destruct (Z.ltb_spec 0 D); [|lia].
  destruct (Z.leb_spec D MAXORDINAL); [|lia]. cbn [andb].
  pose proof (ord2ymd_spec D HD) as Hymd.
  destruct (ord2ymd D) as [[y m] d]. destruct Hymd as [Hy [Hm [Hday Hback]]].
  eexists. split; [reflexivity|]. split; [|split].
  - unfold valid. cbn [year month day hour minute second microsecond].
    rewrite !andb_true_iff, !Z.leb_le, !Z.ltb_lt. clearbody D secs.
    repeat split; try lia; divlia.
  - unfold total_seconds. unfold toordinal at 1.
    cbn [year month day hour minute second microsecond].
    rewrite Hback. clearbody D secs. divlia.
  - cbn [microsecond]. divlia.
Qed.

End Calendar.

(** ** The extraction chain *)

Lemma int_acc_nonneg (s : string) (acc : Z) :
  PyStr.all_digits s = true -> 0 <= acc -> 0 <= PyStr.int_acc acc s.
Proof.
  revert acc; induction s as [|c s IH]; intros acc Hd Hacc;
    cbn [PyStr.int_acc]; [exact Hacc|].
  simpl in Hd. apply andb_true_iff in Hd. destruct Hd as [Hc Hd].
  apply IH; [exact Hd|].
  unfold PyStr.isdigit in Hc. cbv zeta in Hc. unfold PyStr.digit_value.
  apply andb_true_iff in Hc. destruct Hc as [Hc _].
  apply N.leb_le in Hc. lia.
Qed.

Lemma int_nonneg (s : string) (n : Z) : PyStr.int s = Return n -> 0 <= n.
Proof.
  unfold PyStr.int. destruct s as [|c s]; [discriminate|].
  destruct (PyStr.all_digits (String c s)) eqn:E; [|discriminate].
  cbn [negb]. destruct (Nat.ltb _ _); [discriminate|].
  intros [= <-]. change (0 <= PyStr.int_acc 0 (String c s)).
  apply int_acc_nonneg; [exact E | lia].
Qed.

Lemma append_same_length (a a' x y : string) :
  String.length a = String.length a' ->
  (a ++ x)%string = (a' ++ y)%string -> a = a' /\ x = y.
Proof.
  revert a'; induction a as [|c a IH]; intros [|c' a'] Hlen H;
    try discriminate Hlen; simpl in *; [auto|].
  injection H as -> H. injection Hlen as Hlen.
  destruct (IH a' Hlen H) as [-> ->]. auto.
Qed.

Lemma first_split_unique (sep a b a' b' text : string) :
  first_split sep a b text -> first_split sep a' b' text -> b = b'.
Proof.
  intros [H Hmin] [H' Hmin'].
  assert (String.length a = String.length a') as Hlen.
  { apply Nat.le_antisymm; [now apply (Hmin a' b') | now apply (Hmin' a b)]. }
  rewrite H in H'. apply (append_same_length _ _ _ _ Hlen) in H'.
  destruct H' as [_ H']. apply (append_same_length sep sep) in H'; tauto.
Qed.

(** An occurrence before which the pattern matches nowhere is the
    leftmost one. *)
Lemma leftmost_intro (pre ds u text : string) :
  occurrence pre ds u text ->
  (forall k, (k < String.length pre)%nat ->
             Re.match_at (PyStr.drop k text) = None) ->
  leftmost pre ds u text.
Proof.
  intros Hocc Hnone. split; [exact Hocc|].
  intros pre' ds' u' [kw [rest [-> [Hkw [Hne [Hds Hu]]]]]].
  destruct (Nat.le_gt_cases (String.length pre) (String.length pre'))
    as [|Hlt]; [assumption|].
  specialize (Hnone _ Hlt). rewrite drop_append in Hnone.
  rewrite match_at_complete in Hnone by assumption. discriminate.
Qed.

(** The offset is the matched number of the matched unit. *)
Lemma offset_spec (now : DateTime.datetime) (u : string) (n : Z) :
  DateTime.valid now = true -> 0 <= n ->
  In (PyStr.lower u) ["second"; "minute"; "hour"] ->
  DateTime.total_seconds now + n * unit_seconds u < END_OF_TIME ->
  exists due,
    offset now (PyStr.lower u) n = Return due
    /\ DateTime.valid due = true
    /\ DateTime.total_seconds due
       = DateTime.total_seconds now + n * unit_seconds u
    /\ DateTime.microsecond due = DateTime.microsecond now.
Proof.
  intros Hv Hn Hu Hrange. unfold END_OF_TIME in Hrange.
  pose proof (toordinal_bound now Hv) as Hord.
  pose proof (valid_fields now Hv) as [_ [_ [_ [Hh [Hmi [Hse _]]]]]].
  assert (0 <= DateTime.total_seconds now) as Hnow
      by (unfold DateTime.total_seconds; lia).
  assert (forall s mi h,
             s + mi * 60 + h * 3600 = n * unit_seconds u ->
             exists due,
               match DateTime.new_timedelta 0 s 0 mi h with
               | Return delta => DateTime.add now delta
               | Raise e => Raise e
               end = Return due
               /\ DateTime.valid due = true
               /\ DateTime.total_seconds due
                  = DateTime.total_seconds now + n * unit_seconds u
               /\ DateTime.microsecond due = DateTime.microsecond now)
    as Hadd.
  { intros s mi h Hv'.
    assert (0 <= n * unit_seconds u) as Hpos
        by (unfold unit_seconds; repeat destruct (String.eqb _ _); lia).
    rewrite new_timedelta_offset by lia. rewrite Hv'.
    pose proof (add_spec now
                  (DateTime.mktimedelta (n * unit_seconds u / 86400)
                     ((n * unit_seconds u) mod 86400) 0) Hv) as Hs.
    cbn [DateTime.days DateTime.seconds DateTime.microseconds] in Hs.
    destruct Hs as [due [Hdue [Hvalid [Htot Hmicro]]]];
      [divlia | divlia | reflexivity | divlia |].
    exists due.
    repeat split; [exact Hdue | exact Hvalid | | exact Hmicro].
    rewrite Htot. divlia. }
  unfold offset.
  destruct Hu as [Hu|[Hu|[Hu|[]]]]; rewrite <- Hu;
    match goal with
    | |- context [if PyStr.contains "second" ?b then _ else _] =>
        let v1 := eval vm_compute in (PyStr.contains "second" b) in
        let v2 := eval vm_compute in (PyStr.contains "minute" b) in
        let v3 := eval vm_compute in (PyStr.contains "hour" b) in
        change (PyStr.contains "second" b) with v1;
        change (PyStr.contains "minute" b) with v2;
        change (PyStr.contains "hour" b) with v3
    end; cbv iota; apply Hadd; unfold unit_seconds; rewrite <- Hu;
    match goal with
    | |- _ = n * ?k => let v := eval vm_compute in k in change k with v
    end; lia.
Qed.

(** When the semantic step raises, [parse_reminder] is its [except]
    block, run after the GPT call was made. *)
Lemma parse_after_failure
      (gpt : string -> option (string * option string))
      (dateparser_parse : string -> option DateTime.datetime)
      (now : DateTime.datetime) (text : string) (w : world) :
  (forall answer, gpt text = Some answer ->
                  dateparser_parse (fst answer) = None) ->
  parse_reminder gpt dateparser_parse now text w
  = fallbacks dateparser_parse now text
      (mkworld (db w) (outbox w) (gpt_calls w ++ [text])%list).
Proof.
  intros Hgpt. unfold parse_reminder, try_except, semantic_step, bind, ask_gpt.
  destruct (gpt text) as [answer|] eqn:E; [|reflexivity].
  now rewrite (Hgpt answer eq_refl).
Qed.

Lemma fallbacks_matched
      (dateparser_parse : string -> option DateTime.datetime)
      (now : DateTime.datetime) (text g1 g2 : string) (w : world) :
  Re.search text = Some (g1, g2) ->
  snd (fallbacks dateparser_parse now text w)
  = match PyStr.int g1 with
    | Raise e => Raise e
    | Return value =>
        match offset now (PyStr.lower g2) value with
        | Raise e => Raise e
        | Return dt =>
            Return (Some dt,
                    Some (if PyStr.contains "to" text
                          then PyStr.strip
                                 (PyStr.last_item (PyStr.split1 "to" text))
                          else text))
        end
    end.
Proof.
  intros E. unfold fallbacks, bind, lift, ret. rewrite E.
  destruct (PyStr.int g1) as [value|e]; [|reflexivity].
  destruct (offset now (PyStr.lower g2) value); reflexivity.
Qed.




(** No word of this text is "to", yet "to" occurs inside "stop": the
    fallback keeps what follows it, not the whole text. *)
Lemma message_split_inside_a_word :
  occurrence "" "5" "minute" "in 5 minutes stop"
  /\ has_word "to" "in 5 minutes stop" = false
  /\ snd (parse_reminder Scenario.gpt_down Scenario.no_date Scenario.T0
            "in 5 minutes stop" Scenario.fresh)
     = Return (Some (DateTime.mkdatetime 2025 6 1 12 5 0 0), Some "p")
  /\ "p" <> "in 5 minutes stop".
Proof.
  split.
  - exists "in", "s stop". repeat split; simpl; auto. discriminate.
  - repeat split. discriminate.
Qed.

(** C2, as the code has it.  Whenever the fallback on the pattern
    returns a message: if the two characters "to" occur anywhere in the
    text, inside a longer word or not, the message is what follows their
    first occurrence, trimmed; if they occur nowhere, the message is the
    text itself. *)
Theorem fallback_message :
  forall (gpt : string -> option (string * option string))
         (dateparser_parse : string -> option DateTime.datetime)
         (now dt : DateTime.datetime) (text message : string) (w : world),
    (forall answer, gpt text = Some answer ->
                    dateparser_parse (fst answer) = None) ->
    (exists pre ds u, occurrence pre ds u text) ->
    snd (parse_reminder gpt dateparser_parse now text w)
    = Return (Some dt, Some message) ->
    ((exists a b, text = (a ++ "to" ++ b)%string) ->
     exists a b, first_split "to" a b text /\ message = PyStr.strip b)
    /\ ((forall a b, text <> (a ++ "to" ++ b)%string) -> message = text).
Proof.
  intros gpt dateparser_parse now dt text message w Hgpt
         [pre [ds [u Hocc]]] Hparse.
  rewrite (parse_after_failure _ _ _ _ _ Hgpt) in Hparse.
  apply search_complete in Hocc.
  destruct (Re.search text) as [[g1 g2]|] eqn:E; [clear Hocc|congruence].
  rewrite (fallbacks_matched _ _ _ g1 g2 _ E) in Hparse.
  destruct (PyStr.int g1) as [value|e]; [|discriminate].
  destruct (offset now (PyStr.lower g2) value) as [dt'|e]; [|discriminate].
  injection Hparse as _ Hmsg.
  destruct (split_message text) as [[Hc [a0 [b0 [Hsplit Hlast]]]]|[Hc Hnone]];
    rewrite Hc in Hmsg; split.
  - intros _. exists a0, b0. split; [exact Hsplit|]. now rewrite <- Hlast.
  - intros Hno. destruct Hsplit as [Htext _]. now destruct (Hno a0 b0).
  - intros [a [b Htext]]. now destruct (Hnone a b).
  - intros _. now symmetry.
Qed.

Lemma fallback_message_witness :
  (exists a b,
      first_split "to" a b "remind me tomorrow in 2 hours to call mom"
      /\ "morrow in 2 hours to call mom" = PyStr.strip b)
  /\ "in 5 minutes STOP" = "in 5 minutes STOP".
Proof.
  split.
  - apply (fallback_message Scenario.gpt_down Scenario.no_date Scenario.T0
             (DateTime.mkdatetime 2025 6 1 14 0 0 0)
             "remind me tomorrow in 2 hours to call mom"
             "morrow in 2 hours to call mom" Scenario.fresh).
    + intros answer H. discriminate H.
    + exists "remind me tomorrow ", "2", "hour", "in", "s to call mom".
      repeat split; simpl; auto. discriminate.
    + reflexivity.
    + exists "remind me ", "morrow in 2 hours to call mom". reflexivity.
  - apply (fallback_message Scenario.gpt_down Scenario.no_date Scenario.T0
             (DateTime.mkdatetime 2025 6 1 12 5 0 0)
             "in 5 minutes STOP" "in 5 minutes STOP" Scenario.fresh).
    + intros answer H. discriminate H.
    + exists "", "5", "minute", "in", "s STOP".
      repeat split; simpl; auto. discriminate.
    + reflexivity.
    + intros a b H.
      assert (PyStr.contains "to" "in 5 minutes STOP" = true) as E
          by (apply contains_iff; now exists a, b).
      vm_compute in E. discriminate E.
Defined.

(** ** Texts nothing recognises *)

(** C3. When the semantic step raises, the phrase "in <N> <unit>" stands
    nowhere in the text and the date parser returns nothing,
    [parse_reminder] returns [(None, None)]; the handler then sends the
    guidance text and the table is left as it was. *)
Theorem unparseable_text_gets_guidance :
  forall (gpt : string -> option (string * option string))
         (dateparser_parse : string -> option DateTime.datetime)
         (telegram : list (string * outgoing) -> string -> outgoing -> bool)
         (now : DateTime.datetime) (chat text : string) (w : world),
    (forall answer, gpt text = Some answer ->
                    dateparser_parse (fst answer) = None) ->
    (forall pre ds u, ~ occurrence pre ds u text) ->
    dateparser_parse text = None ->
    snd (parse_reminder gpt dateparser_parse now text w) = Return (None, None)
    /\ db (fst (handle_reminder_request gpt dateparser_parse telegram
                  now chat text w)) = db w
    /\ outbox (fst (handle_reminder_request gpt dateparser_parse telegram
                      now chat text w))
       = (outbox w ++ [(chat, Guidance)])%list.
Proof.
  intros gpt dateparser_parse telegram now chat text w Hgpt Hre Hdate.
  apply search_none_iff in Hre.
  unfold handle_reminder_request, bind.
  rewrite (parse_after_failure _ _ _ _ _ Hgpt).
  unfold fallbacks, send_message, ret. rewrite Hre, Hdate. simpl.
  destruct (telegram (outbox w) chat Guidance); simpl; auto.
Qed.

Lemma unparseable_text_gets_guidance_witness :
  snd (parse_reminder Scenario.gpt_down Scenario.no_date Scenario.T0
         "asdkjasd" Scenario.fresh) = Return (None, None)
  /\ db (fst (handle_reminder_request Scenario.gpt_down Scenario.no_date
                Scenario.telegram_up Scenario.T0 "42" "asdkjasd"
                Scenario.fresh)) = db Scenario.fresh
  /\ outbox (fst (handle_reminder_request Scenario.gpt_down Scenario.no_date
                    Scenario.telegram_up Scenario.T0 "42" "asdkjasd"
                    Scenario.fresh))
     = (outbox Scenario.fresh ++ [("42", Guidance)])%list.
Proof.
  apply (unparseable_text_gets_guidance Scenario.gpt_down Scenario.no_date
           Scenario.telegram_up Scenario.T0 "42" "asdkjasd" Scenario.fresh).
  - intros answer H. discriminate H.
  - apply search_none_iff. reflexivity.
  - reflexivity.
Defined.

(** ** End-to-end scenario 1 *)

(** "remind me in 10 seconds to drink water" at T0 with GPT down: the
    reminder is stored for T0 + 10 s with the message "drink water"; a
    scan at T0 + 11 s delivers it and removes it. *)
Example scenario_drink_water :
  let w1 := fst (handle_text_reminder Scenario.gpt_down Scenario.no_date
                   Scenario.telegram_up Scenario.T0 "42"
                   "remind me in 10 seconds to drink water" Scenario.fresh) in
  let w2 := fst (check_reminders Scenario.telegram_up (Scenario.T0_plus 11) w1) in
  Store.rows (db w1)
  = [Store.mkrow 1 "42" "drink water" "2025-06-01 12:00:10"]
  /\ Store.get_due_reminders (Scenario.T0_plus 9) (db w1) = []
  /\ Store.get_due_reminders (Scenario.T0_plus 11) (db w1)
     = [(1, "42", "drink water")]
  /\ outbox w2
     = [("42", Confirmation (Scenario.T0_plus 10) "drink water");
        ("42", Notification "drink water")]
  /\ Store.rows (db w2) = [].
Proof. repeat split. Qed.

(** * Further properties of the code *)

(** ** The order of the extraction strategies *)

(** X1. When GPT answers and the date parser reads its time, this is the
    result of [parse_reminder], whatever the text contains: neither the
    pattern nor the date parser on the text is consulted. *)
Theorem semantic_answer_wins :
  forall (gpt : string -> option (string * option string))
         (dateparser_parse : string -> option DateTime.datetime)
         (now dt : DateTime.datetime) (text time : string)
         (message : option string) (w : world),
    gpt text = Some (time, message) ->
    dateparser_parse time = Some dt ->
    parse_reminder gpt dateparser_parse now text w
    = (mkworld (db w) (outbox w) (gpt_calls w ++ [text])%list,
       Return (Some dt, message)).
Proof.
  intros gpt dateparser_parse now dt text time message w Hgpt Hdate.
  unfold parse_reminder, try_except, semantic_step, bind, ask_gpt, ret.
  rewrite Hgpt. cbn [fst snd]. now rewrite Hdate.
Qed.

Lemma semantic_answer_wins_witness :
  parse_reminder Answers.gpt_call_mom Answers.parse_tomorrow Scenario.T0
    "remind me in 10 seconds to drink water" Scenario.fresh
  = (mkworld Store.empty [] ["remind me in 10 seconds to drink water"],
     Return (Some Answers.tomorrow_5pm, Some "call mom")).
Proof.
  apply (semantic_answer_wins Answers.gpt_call_mom Answers.parse_tomorrow
           Scenario.T0 Answers.tomorrow_5pm
           "remind me in 10 seconds to drink water" "tomorrow at 5 PM"
           (Some "call mom") Scenario.fresh).
  - reflexivity.
  - reflexivity.
Defined.

(** X2. When the semantic step raises and the phrase "in <N> <unit>"
    stands nowhere in the text, a text the date parser reads is returned
    with its instant and the whole text, untrimmed, as the message. *)
Theorem date_phrase_fallback :
  forall (gpt : string -> option (string * option string))
         (dateparser_parse : string -> option DateTime.datetime)
         (now dt : DateTime.datetime) (text : string) (w : world),
    (forall answer, gpt text = Some answer ->
                    dateparser_parse (fst answer) = None) ->
    (forall pre ds u, ~ occurrence pre ds u text) ->
    dateparser_parse text = Some dt ->
    snd (parse_reminder gpt dateparser_parse now text w)
    = Return (Some dt, Some text).
Proof.
  intros gpt dateparser_parse now dt text w Hgpt Hno Hdate.
  rewrite (parse_after_failure _ _ _ _ _ Hgpt).
  apply search_none_iff in Hno.
  unfold fallbacks, ret. now rewrite Hno, Hdate.
Qed.

Lemma date_phrase_fallback_witness :
  snd (parse_reminder Scenario.gpt_down Answers.parse_tomorrow Scenario.T0
         "tomorrow at 5 PM" Scenario.fresh)
  = Return (Some Answers.tomorrow_5pm, Some "tomorrow at 5 PM").
Proof.
  apply (date_phrase_fallback Scenario.gpt_down Answers.parse_tomorrow
           Scenario.T0 Answers.tomorrow_5pm "tomorrow at 5 PM" Scenario.fresh).
  - intros answer H. discriminate H.
  - apply search_none_iff. reflexivity.
  - reflexivity.
Defined.

(** X3. When the semantic step raises and the phrase stands in the text,
    what the date parser would make of the text plays no part: two date
    parsers under which the semantic step raises give the same result. *)
Theorem pattern_precedes_date_parser :
  forall (gpt : string -> option (string * option string))
         (parse1 parse2 : string -> option DateTime.datetime)
         (now : DateTime.datetime) (text : string) (w : world),
    (forall answer, gpt text = Some answer -> parse1 (fst answer) = None) ->
    (forall answer, gpt text = Some answer -> parse2 (fst answer) = None) ->
    (exists pre ds u, occurrence pre ds u text) ->
    parse_reminder gpt parse1 now text w = parse_reminder gpt parse2 now text w.
Proof.
  intros gpt parse1 parse2 now text w H1 H2 [pre [ds [u Hocc]]].
  rewrite (parse_after_failure _ _ _ _ _ H1), (parse_after_failure _ _ _ _ _ H2).
  apply search_complete in Hocc. unfold fallbacks.
  destruct (Re.search text) as [[g1 g2]|]; [reflexivity | congruence].
Qed.

Lemma pattern_precedes_date_parser_witness :
  parse_reminder Scenario.gpt_down Scenario.no_date Scenario.T0
    "in 5 minutes stop" Scenario.fresh
  = parse_reminder Scenario.gpt_down (fun _ => Some Answers.tomorrow_5pm)
      Scenario.T0 "in 5 minutes stop" Scenario.fresh.
Proof.
  apply (pattern_precedes_date_parser Scenario.gpt_down Scenario.no_date
           (fun _ => Some Answers.tomorrow_5pm) Scenario.T0
           "in 5 minutes stop" Scenario.fresh).
  - intros answer H. discriminate H.
  - intros answer H. discriminate H.
  - exists "", "5", "minute", "in", "s stop".
    repeat split; simpl; auto. discriminate.
Defined.

Lemma parse_reminder_footprint_fst :
  forall (gpt : string -> option (string * option string))
         (dateparser_parse : string -> option DateTime.datetime)
         (now : DateTime.datetime) (text : string) (w : world),
    fst (parse_reminder gpt dateparser_parse now text w)
    = mkworld (db w) (outbox w) (gpt_calls w ++ [text])%list.
Proof.
  intros gpt dateparser_parse now text w.
  unfold parse_reminder, try_except, semantic_step, bind, ask_gpt, raise, ret.
  destruct (gpt text) as [answer|].
  - destruct (dateparser_parse (fst answer)); [reflexivity|].
    unfold fallbacks, bind, lift, ret.
    destruct (Re.search text) as [[g1 g2]|].
    + destruct (PyStr.int g1) as [value|e]; [|reflexivity].
      destruct (offset now (PyStr.lower g2) value); reflexivity.
    + destruct (dateparser_parse text); reflexivity.
  - unfold fallbacks, bind, lift, ret.
    destruct (Re.search text) as [[g1 g2]|].
    + destruct (PyStr.int g1) as [value|e]; [|reflexivity].
      destruct (offset now (PyStr.lower g2) value); reflexivity.
    + destruct (dateparser_parse text); reflexivity.
Qed.

(** X4. Whatever it returns or raises, [parse_reminder] submits the text
    to GPT exactly once and touches neither the table nor the outbox. *)
Theorem parse_reminder_footprint :
  forall (gpt : string -> option (string * option string))
         (dateparser_parse : string -> option DateTime.datetime)
         (now : DateTime.datetime) (text : string) (w : world),
    db (fst (parse_reminder gpt dateparser_parse now text w)) = db w
    /\ outbox (fst (parse_reminder gpt dateparser_parse now text w)) = outbox w
    /\ gpt_calls (fst (parse_reminder gpt dateparser_parse now text w))
       = (gpt_calls w ++ [text])%list.
Proof.
  intros gpt dateparser_parse now text w.
  rewrite parse_reminder_footprint_fst. cbn [db outbox gpt_calls].
  repeat split.
Qed.

(** ** Where the offset leaves the calendar *)

Section Overflow.

Import DateTime.

Lemma add_overflow (now : datetime) (other : timedelta) :
  valid now = true ->
  0 <= days other -> 0 <= seconds other < 86400 -> microseconds other = 0 ->
  MAXORDINAL * 86400
  <= total_seconds now + days other * 86400 + seconds other ->
  add now other = Raise OverflowError.
Proof.
  intros Hv Hd Hs Hus Hrange.
  pose proof (toordinal_bound now Hv) as Hord.
  pose proof (valid_fields now Hv) as [_ [_ [_ [Hh [Hmi [Hse Hu]]]]]].
  unfold total_seconds, MAXORDINAL in Hrange.
  unfold add.
  rewrite new_timedelta_normal by divlia.
  cbn [days seconds microseconds]. rewrite Hus.
  unfold new_timedelta at 1.
  match goal with
  | |- context [999999999 <? Z.abs ?X] =>
      set (D := X); destruct (Z.ltb_spec 999999999 (Z.abs D)); [reflexivity|]
  end.
  cbn [days seconds microseconds].
  assert (MAXORDINAL < D) as HD by (unfold D, MAXORDINAL; divlia).
  destruct (Z.leb_spec D MAXORDINAL); [lia|].
  now rewrite andb_false_r.
Qed.

Lemma new_timedelta_cases (s mi h : Z) :
  0 <= s + mi * 60 + h * 3600 ->
  new_timedelta 0 s 0 mi h = Raise OverflowError
  \/ new_timedelta 0 s 0 mi h
     = Return (mktimedelta ((s + mi * 60 + h * 3600) / 86400)
                           ((s + mi * 60 + h * 3600) mod 86400) 0).
Proof.
  intros Hv. unfold new_timedelta.
  change (0 / 1000000) with 0. change (0 mod 1000000) with 0.
  rewrite Z.add_0_r, Z.add_0_l.
  destruct (_ <? _); [left | right]; reflexivity.
Qed.

Lemma offset_overflow (now : datetime) (u : string) (n : Z) :
  valid now = true -> 0 <= n ->
  In (PyStr.lower u) ["second"; "minute"; "hour"] ->
  END_OF_TIME <= total_seconds now + n * unit_seconds u ->
  offset now (PyStr.lower u) n = Raise OverflowError.
Proof.
  intros Hv Hn Hu Hrange. unfold END_OF_TIME in Hrange.
  assert (forall s mi h,
             s + mi * 60 + h * 3600 = n * unit_seconds u ->
             match new_timedelta 0 s 0 mi h with
             | Return delta => add now delta
             | Raise e => Raise e
             end = Raise OverflowError) as Hadd.
  { intros s mi h Hv'.
    assert (0 <= n * unit_seconds u) as Hpos
        by (unfold unit_seconds; repeat destruct (String.eqb _ _); lia).
    destruct (new_timedelta_cases s mi h) as [-> | ->]; [lia|reflexivity|].
    rewrite Hv'. apply add_overflow;
      cbn [days seconds microseconds]; try assumption; try reflexivity;
      divlia. }
  unfold offset.
  destruct Hu as [Hu|[Hu|[Hu|[]]]]; rewrite <- Hu;
    match goal with
    | |- context [if PyStr.contains "second" ?b then _ else _] =>
        let v1 := eval vm_compute in (PyStr.contains "second" b) in
        let v2 := eval vm_compute in (PyStr.contains "minute" b) in
        let v3 := eval vm_compute in (PyStr.contains "hour" b) in
        change (PyStr.contains "second" b) with v1;
        change (PyStr.contains "minute" b) with v2;
        change (PyStr.contains "hour" b) with v3
    end; cbv iota; apply Hadd; unfold unit_seconds; rewrite <- Hu;
    match goal with
    | |- _ = n * ?k => let v := eval vm_compute in k in change k with v
    end; lia.
Qed.

End Overflow.

(** X5. Where the fallback on the pattern stops working: on a text of
    characters below U+0100 whose leftmost "in <N> <unit>" phrase has the
    number [n] and the unit word [u], when the semantic step raises and
    the instant [n] units after the call time is past the last second a
    [datetime] can hold, [parse_reminder] raises [OverflowError]. *)
Theorem offset_past_the_calendar_raises :
  forall (gpt : string -> option (string * option string))
         (dateparser_parse : string -> option DateTime.datetime)
         (now : DateTime.datetime) (text : string) (w : world)
         (pre ds u : string) (n : Z),
    (forall answer, gpt text = Some answer ->
                    dateparser_parse (fst answer) = None) ->
    leftmost pre ds u text ->
    PyStr.int ds = Return n ->
    DateTime.valid now = true ->
    END_OF_TIME <= DateTime.total_seconds now + n * unit_seconds u ->
    snd (parse_reminder gpt dateparser_parse now text w) = Raise OverflowError.
Proof.
  intros gpt dateparser_parse now text w pre ds u n Hgpt Hleft Hint Hnow Hrange.
  rewrite (parse_after_failure _ _ _ _ _ Hgpt).
  rewrite (fallbacks_matched _ _ _ ds u _ (search_leftmost _ _ _ _ Hleft)).
  rewrite Hint.
  destruct Hleft as [[kw [rest [_ [_ [_ [_ Hu]]]]]] _].
  now rewrite (offset_overflow now u n Hnow (int_nonneg _ _ Hint) Hu Hrange).
Qed.

Lemma offset_past_the_calendar_raises_witness :
  snd (parse_reminder Scenario.gpt_down Scenario.no_date Scenario.T0
         "in 70000000 hours" Scenario.fresh) = Raise OverflowError.
Proof.
  apply (offset_past_the_calendar_raises Scenario.gpt_down Scenario.no_date
           Scenario.T0 "in 70000000 hours" Scenario.fresh
           "" "70000000" "hour" 70000000).
  - intros answer H. discriminate H.
  - apply leftmost_intro.
    + exists "in", "s". repeat split; simpl; auto. discriminate.
    + simpl. intros k Hk. lia.
  - reflexivity.
  - reflexivity.
  - vm_compute. discriminate.
Defined.

(** ** What a request leaves behind *)

Lemma handle_reminder_request_unfold
      (gpt : string -> option (string * option string))
      (dateparser_parse : string -> option DateTime.datetime)
      (telegram : list (string * outgoing) -> string -> outgoing -> bool)
      (now : DateTime.datetime) (chat text : string) (w : world) :
  handle_reminder_request gpt dateparser_parse telegram now chat text w
  = let w1 := mkworld (db w) (outbox w) (gpt_calls w ++ [text])%list in
    match snd (parse_reminder gpt dateparser_parse now text w) with
    | Raise e => (w1, Raise e)
    | Return (Some dt, Some message) =>
        bind (add_reminder chat message (DateTime.strftime dt))
             (fun _ => send_message telegram chat (Confirmation dt message)) w1
    | Return _ => send_message telegram chat Guidance w1
    end.
Proof.
  unfold handle_reminder_request. unfold bind at 1.
  rewrite (surjective_pairing (parse_reminder gpt dateparser_parse now text w)).
  rewrite parse_reminder_footprint_fst.
  destruct (snd (parse_reminder gpt dateparser_parse now text w))
    as [[[dt|] [message|]]|e]; reflexivity.
Qed.

(** X6. When [parse_reminder] returns an instant of year 1000 or later
    and a message that is a text, the handler appends one row for the
    requesting chat, with the next rowid, the message and the instant
    formatted to the second, and then hands the confirmation to Telegram.
    The row is committed before the confirmation is sent: it is there
    even when Telegram refuses the confirmation and the handler raises. *)
Theorem request_is_stored_then_confirmed :
  forall (gpt : string -> option (string * option string))
         (dateparser_parse : string -> option DateTime.datetime)
         (telegram : list (string * outgoing) -> string -> outgoing -> bool)
         (now dt : DateTime.datetime) (chat text message : string)
         (w : world) (i : Z),
    snd (parse_reminder gpt dateparser_parse now text w)
    = Return (Some dt, Some message) ->
    1000 <= DateTime.year dt ->
    Store.next_rowid (db w) = Return i ->
    handle_reminder_request gpt dateparser_parse telegram now chat text w
    = (mkworld
         (Store.mktable
            (Store.rows (db w)
             ++ [Store.mkrow i chat message (DateTime.strftime dt)])%list i)
         (outbox w ++ [(chat, Confirmation dt message)])%list
         (gpt_calls w ++ [text])%list,
       if telegram (outbox w) chat (Confirmation dt message)
       then Return tt else Raise TelegramError).
Proof.
  intros gpt dateparser_parse telegram now dt chat text message w i
         Hparse _ Hid.
  rewrite handle_reminder_request_unfold, Hparse. cbv zeta.
  unfold bind, add_reminder, Store.add_reminder, send_message.
  cbn [db outbox gpt_calls]. rewrite Hid. cbn [db outbox gpt_calls].
  destruct (telegram (outbox w) chat (Confirmation dt message)); reflexivity.
Qed.

Lemma request_is_stored_then_confirmed_witness :
  handle_reminder_request Scenario.gpt_down Scenario.no_date
    Scenario.telegram_down Scenario.T0 "42"
    "remind me in 10 seconds to drink water" Scenario.fresh
  = (mkworld
       (Store.mktable
          [Store.mkrow 1 "42" "drink water"
             (DateTime.strftime (Scenario.T0_plus 10))] 1)
       [("42", Confirmation (Scenario.T0_plus 10) "drink water")]
       ["remind me in 10 seconds to drink water"],
     Raise TelegramError).
Proof.
  apply (request_is_stored_then_confirmed Scenario.gpt_down Scenario.no_date
           Scenario.telegram_down Scenario.T0 (Scenario.T0_plus 10) "42"
           "remind me in 10 seconds to drink water" "drink water"
           Scenario.fresh 1).
  - reflexivity.
  - simpl. lia.
  - reflexivity.
Defined.

(** X7. When [parse_reminder] returns without an instant or without a
    message (GPT answered a JSON null for it), the handler sends the
    guidance text and stores nothing, even if an instant was found. *)
Theorem missing_part_gets_guidance :
  forall (gpt : string -> option (string * option string))
         (dateparser_parse : string -> option DateTime.datetime)
         (telegram : list (string * outgoing) -> string -> outgoing -> bool)
         (now : DateTime.datetime) (chat text : string) (w : world)
         (dt : option DateTime.datetime) (message : option string),
    snd (parse_reminder gpt dateparser_parse now text w)
    = Return (dt, message) ->
    dt = None \/ message = None ->
    db (fst (handle_reminder_request gpt dateparser_parse telegram
               now chat text w)) = db w
    /\ outbox (fst (handle_reminder_request gpt dateparser_parse telegram
                      now chat text w))
       = (outbox w ++ [(chat, Guidance)])%list.
Proof.
  intros gpt dateparser_parse telegram now chat text w dt message Hparse Hnone.
  rewrite handle_reminder_request_unfold, Hparse. cbv zeta.
  assert (match dt, message with
          | Some d, Some m =>
              bind (add_reminder chat m (DateTime.strftime d))
                (fun _ => send_message telegram chat (Confirmation d m))
                (mkworld (db w) (outbox w) (gpt_calls w ++ [text])%list)
          | _, _ =>
              send_message telegram chat Guidance
                (mkworld (db w) (outbox w) (gpt_calls w ++ [text])%list)
          end
          = send_message telegram chat Guidance
              (mkworld (db w) (outbox w) (gpt_calls w ++ [text])%list)) as E.
  { destruct Hnone as [-> | ->]; [reflexivity|]. now destruct dt. }
  destruct dt as [d|], message as [m|]; rewrite ?E;
    unfold send_message; cbn [db outbox gpt_calls];
    try destruct (telegram (outbox w) chat Guidance); cbn; auto;
    destruct Hnone; discriminate.
Qed.

Lemma missing_part_gets_guidance_witness :
  db (fst (handle_reminder_request Answers.gpt_null_message
             Answers.parse_tomorrow Scenario.telegram_up Scenario.T0 "42"
             "remind me tomorrow at 5 PM" Scenario.fresh)) = db Scenario.fresh
  /\ outbox (fst (handle_reminder_request Answers.gpt_null_message
                    Answers.parse_tomorrow Scenario.telegram_up Scenario.T0
                    "42" "remind me tomorrow at 5 PM" Scenario.fresh))
     = (outbox Scenario.fresh ++ [("42", Guidance)])%list.
Proof.
  apply (missing_part_gets_guidance Answers.gpt_null_message
           Answers.parse_tomorrow Scenario.telegram_up Scenario.T0 "42"
           "remind me tomorrow at 5 PM" Scenario.fresh
           (Some Answers.tomorrow_5pm) None).
  - reflexivity.
  - right. reflexivity.
Defined.

(** X8. When [parse_reminder] raises, the handler raises the same
    exception at once: the user gets no reply at all, not even the
    guidance text, and nothing is stored. *)
Theorem failed_parse_is_silent :
  forall (gpt : string -> option (string * option string))
         (dateparser_parse : string -> option DateTime.datetime)
         (telegram : list (string * outgoing) -> string -> outgoing -> bool)
         (now : DateTime.datetime) (chat text : string) (w : world) (e : exn),
    snd (parse_reminder gpt dateparser_parse now text w) = Raise e ->
    handle_reminder_request gpt dateparser_parse telegram now chat text w
    = (mkworld (db w) (outbox w) (gpt_calls w ++ [text])%list, Raise e).
Proof.
  intros gpt dateparser_parse telegram now chat text w e Hparse.
  now rewrite handle_reminder_request_unfold, Hparse.
Qed.

Lemma failed_parse_is_silent_witness :
  handle_reminder_request Scenario.gpt_down Scenario.no_date
    Scenario.telegram_up Scenario.T0 "42" "in 99999999999 hours to nap"
    Scenario.fresh
  = (mkworld Store.empty [] ["in 99999999999 hours to nap"],
     Raise OverflowError).
Proof.
  apply (failed_parse_is_silent Scenario.gpt_down Scenario.no_date
           Scenario.telegram_up Scenario.T0 "42" "in 99999999999 hours to nap"
           Scenario.fresh OverflowError).
  reflexivity.
Defined.

Lemma lstrip_blank (s : string) : blank s = true -> PyStr.lstrip s = EmptyString.
Proof.
  induction s as [|c s IH]; simpl; [reflexivity|].
  intros H. apply andb_true_iff in H. destruct H as [-> H]. now apply IH.
Qed.

Lemma strip_blank (s : string) : blank s = true -> PyStr.strip s = EmptyString.
Proof. intros H. unfold PyStr.strip. now rewrite lstrip_blank. Qed.

(** X9. The fallback on the pattern does not insist on a message: when
    only white space, or nothing, follows the first "to" of the text, the
    message it returns is the empty text. *)
Theorem nothing_after_to_gives_empty_message :
  forall (gpt : string -> option (string * option string))
         (dateparser_parse : string -> option DateTime.datetime)
         (now dt : DateTime.datetime) (text message a b : string) (w : world),
    (forall answer, gpt text = Some answer ->
                    dateparser_parse (fst answer) = None) ->
    (exists pre ds u, occurrence pre ds u text) ->
    snd (parse_reminder gpt dateparser_parse now text w)
    = Return (Some dt, Some message) ->
    first_split "to" a b text ->
    blank b = true ->
    message = EmptyString.
Proof.
  intros gpt dateparser_parse now dt text message a b w Hgpt
         [pre [ds [u Hocc]]] Hparse Hto Hblank.
  rewrite (parse_after_failure _ _ _ _ _ Hgpt) in Hparse.
  apply search_complete in Hocc.
  destruct (Re.search text) as [[g1 g2]|] eqn:E; [clear Hocc|congruence].
  rewrite (fallbacks_matched _ _ _ g1 g2 _ E) in Hparse.
  destruct (PyStr.int g1) as [value|e]; [|discriminate].
  destruct (offset now (PyStr.lower g2) value) as [dt'|e]; [|discriminate].
  injection Hparse as _ Hmsg.
  destruct (split_message text) as [[Hc [a0 [b0 [Hsplit Hlast]]]]|[_ Hnone]].
  - rewrite Hc, Hlast in Hmsg.
    rewrite <- (first_split_unique _ _ _ _ _ _ Hto Hsplit) in Hmsg.
    now rewrite strip_blank in Hmsg.
  - destruct Hto as [Hto _]. now destruct (Hnone a b).
Qed.

Lemma nothing_after_to_gives_empty_message_witness :
  "" = EmptyString.
Proof.
  apply (nothing_after_to_gives_empty_message Scenario.gpt_down
           Scenario.no_date Scenario.T0 (Scenario.T0_plus 30)
           "remind me in 30 seconds to" "" "remind me in 30 seconds " ""
           Scenario.fresh).
  - intros answer H. discriminate H.
  - exists "remind me ", "30", "second", "in", "s to".
    repeat split; simpl; auto. discriminate.
  - reflexivity.
  - apply partition_some. reflexivity.
  - reflexivity.
Defined.

(** ** The two routes to the handler *)

(** X10. A plain text in which some stretch reads "remind", in any mix of
    upper and lower case and also inside a longer word, is treated
    exactly as a request. *)
Theorem text_with_remind_is_handled :
  forall (gpt : string -> option (string * option string))
         (dateparser_parse : string -> option DateTime.datetime)
         (telegram : list (string * outgoing) -> string -> outgoing -> bool)
         (now : DateTime.datetime) (chat text a v b : string) (w : world),
    text = (a ++ v ++ b)%string ->
    PyStr.lower v = "remind" ->
    handle_text_reminder gpt dateparser_parse telegram now chat text w
    = handle_reminder_request gpt dateparser_parse telegram now chat text w.
Proof.
  intros gpt dateparser_parse telegram now chat text a v b w Htext Hv.
  unfold handle_text_reminder.
  assert (PyStr.contains "remind" (PyStr.lower text) = true) as ->
      by (apply contains_lower_iff; now exists a, v, b).
  reflexivity.
Qed.

Lemma text_with_remind_is_handled_witness :
  handle_text_reminder Scenario.gpt_down Scenario.no_date Scenario.telegram_up
    Scenario.T0 "42" "A REMINDER in 5 minutes" Scenario.fresh
  = handle_reminder_request Scenario.gpt_down Scenario.no_date
      Scenario.telegram_up Scenario.T0 "42" "A REMINDER in 5 minutes"
      Scenario.fresh.
Proof.
  apply (text_with_remind_is_handled Scenario.gpt_down Scenario.no_date
           Scenario.telegram_up Scenario.T0 "42" "A REMINDER in 5 minutes"
           "A " "REMIND" "ER in 5 minutes" Scenario.fresh).
  - reflexivity.
  - reflexivity.
Defined.

(** X11. The command [/remind] with no argument makes a request of the
    empty text: when GPT and the date parser make nothing of it, the
    guidance text is sent and nothing is stored. *)
Theorem remind_without_arguments :
  forall (gpt : string -> option (string * option string))
         (dateparser_parse : string -> option DateTime.datetime)
         (telegram : list (string * outgoing) -> string -> outgoing -> bool)
         (now : DateTime.datetime) (chat : string) (w : world),
    (forall answer, gpt EmptyString = Some answer ->
                    dateparser_parse (fst answer) = None) ->
    dateparser_parse EmptyString = None ->
    db (fst (remind gpt dateparser_parse telegram now chat [] w)) = db w
    /\ outbox (fst (remind gpt dateparser_parse telegram now chat [] w))
       = (outbox w ++ [(chat, Guidance)])%list
    /\ gpt_calls (fst (remind gpt dateparser_parse telegram now chat [] w))
       = (gpt_calls w ++ [EmptyString])%list.
Proof.
  intros gpt dateparser_parse telegram now chat w Hgpt Hdate.
  unfold remind. cbn [String.concat].
  rewrite handle_reminder_request_unfold.
  rewrite (parse_after_failure _ _ _ _ _ Hgpt).
  unfold fallbacks. cbn [Re.search]. change (Re.match_at EmptyString) with
    (@None (string * string)). cbv iota. rewrite Hdate.
  cbn [snd ret]. cbv zeta. unfold send_message. cbn [db outbox gpt_calls].
  destruct (telegram (outbox w) chat Guidance); cbn; auto.
Qed.

Lemma remind_without_arguments_witness :
  db (fst (remind Scenario.gpt_down Scenario.no_date Scenario.telegram_up
             Scenario.T0 "42" [] Scenario.fresh)) = db Scenario.fresh
  /\ outbox (fst (remind Scenario.gpt_down Scenario.no_date
                    Scenario.telegram_up Scenario.T0 "42" [] Scenario.fresh))
     = (outbox Scenario.fresh ++ [("42", Guidance)])%list
  /\ gpt_calls (fst (remind Scenario.gpt_down Scenario.no_date
                       Scenario.telegram_up Scenario.T0 "42" []
                       Scenario.fresh))
     = (gpt_calls Scenario.fresh ++ [EmptyString])%list.
Proof.
  apply (remind_without_arguments Scenario.gpt_down Scenario.no_date
           Scenario.telegram_up Scenario.T0 "42" Scenario.fresh).
  - intros answer H. discriminate H.
  - reflexivity.
Defined.

(** ** What a scan leaves alone *)

Lemma scan_state
      (telegram : list (string * outgoing) -> string -> outgoing -> bool)
      (now : DateTime.datetime) (w : world) :
  exists acked rest,
    Store.get_due_reminders now (db w) = (acked ++ rest)%list
    /\ db (fst (check_reminders telegram now w))
       = delete_all (map fetched_id acked) (db w)
    /\ gpt_calls (fst (check_reminders telegram now w)) = gpt_calls w.
Proof.
  rewrite check_reminders_unfold.
  destruct (dispatch_outcome telegram (Store.get_due_reminders now (db w)) w)
    as [acked [rest [Hl Hrun]]].
  exists acked, rest. split; [exact Hl|].
  destruct rest as [|stopped rest]; [|destruct Hrun as [e Hrun]];
    rewrite Hrun; split; reflexivity.
Qed.

Lemma delete_all_seq (ids : list Z) (t : Store.table) :
  Store.seq (delete_all ids t) = Store.seq t.
Proof.
  revert t; induction ids as [|i ids IH]; intros t; [reflexivity|].
  unfold delete_all in *. simpl. now rewrite IH.
Qed.

(** X12. A scan deletes nothing but reminders that are due: in a table
    keyed by id, every row that is not due at [now] is still there after
    the scan, however the deliveries went; the scan also leaves the id
    sequence alone and never calls GPT. *)
Theorem scan_keeps_what_is_not_due :
  forall (telegram : list (string * outgoing) -> string -> outgoing -> bool)
         (now : DateTime.datetime) (w : world) (r : Store.row),
    NoDup (map Store.id (Store.rows (db w))) ->
    In r (Store.rows (db w)) ->
    Store.due now r = false ->
    In r (Store.rows (db (fst (check_reminders telegram now w))))
    /\ Store.seq (db (fst (check_reminders telegram now w))) = Store.seq (db w)
    /\ gpt_calls (fst (check_reminders telegram now w)) = gpt_calls w.
Proof.
  intros telegram now w r Hkey Hr Hdue.
  destruct (scan_state telegram now w) as [acked [rest [Hl [Hdb Hgpt]]]].
  rewrite Hdb, delete_all_seq. split; [|auto].
  rewrite delete_all_rows. apply filter_In. split; [exact Hr|].
  apply negb_true_iff, not_true_iff_false. intros Hin.
  apply existsb_id_iff in Hin. apply in_map_iff in Hin.
  destruct Hin as [x [Hid Hx]].
  assert (In x (Store.get_due_reminders now (db w))) as Hx'
      by (rewrite Hl; apply in_or_app; now left).
  unfold Store.get_due_reminders in Hx'. apply in_map_iff in Hx'.
  destruct Hx' as [r' [<- Hr']]. apply filter_In in Hr'.
  destruct Hr' as [Hr' Hdue'].
  rewrite (row_of_id _ r' r Hkey Hr' Hr Hid) in Hdue'. congruence.
Qed.

Lemma scan_keeps_what_is_not_due_witness :
  In (Store.mkrow 3 "42" "walk" "2025-06-01 12:00:40")
     (Store.rows
        (db (fst (check_reminders Scenario.telegram_up (Scenario.T0_plus 11)
                    (mkworld
                       (Store.mktable
                          [Store.mkrow 1 "42" "drink water" "2025-06-01 12:00:10";
                           Store.mkrow 3 "42" "walk" "2025-06-01 12:00:40"] 3)
                       [] []))))).
Proof.
  apply (scan_keeps_what_is_not_due Scenario.telegram_up (Scenario.T0_plus 11)
           (mkworld
              (Store.mktable
                 [Store.mkrow 1 "42" "drink water" "2025-06-01 12:00:10";
                  Store.mkrow 3 "42" "walk" "2025-06-01 12:00:40"] 3)
              [] [])
           (Store.mkrow 3 "42" "walk" "2025-06-01 12:00:40")).
  - simpl. repeat constructor; simpl; intuition lia.
  - simpl. right. left. reflexivity.
  - reflexivity.
Defined.

Lemma scan_outbox
      (telegram : list (string * outgoing) -> string -> outgoing -> bool)
      (now : DateTime.datetime) (w : world) (x : Z * string * string)
      (l : list (Z * string * string)) :
  Store.get_due_reminders now (db w) = x :: l ->
  exists more,
    outbox (fst (check_reminders telegram now w))
    = (outbox w ++ attempt x :: more)%list.
Proof.
  intros Hdue. rewrite check_reminders_unfold, Hdue.
  destruct (telegram (outbox w) (fst (attempt x)) (snd (attempt x))) eqn:E.
  - destruct (Store.bindable (fetched_id x)) eqn:Ei.
    + rewrite (dispatch_cons_ack _ _ _ _ E Ei).
      destruct (dispatch_outcome telegram l
                  (mkworld (Store.delete_reminder (fetched_id x) (db w))
                           (outbox w ++ [attempt x])%list (gpt_calls w)))
        as [acked [[|stopped rest] [_ Hrun]]];
        [|destruct Hrun as [e Hrun]]; rewrite Hrun; cbn [fst outbox];
        rewrite <- app_assoc; eexists; reflexivity.
    + rewrite (dispatch_cons_overflow _ _ _ _ E Ei). exists []. reflexivity.
  - rewrite (dispatch_cons_fail _ _ _ _ E). exists []. reflexivity.
Qed.

(** X13. A scan changes nothing and sends nothing exactly when no row is
    due; and as soon as one row is due, the due query fetches a first
    row and the text of that row is handed to Telegram, right after what
    was handed to it before the scan. *)
Theorem scan_with_nothing_due :
  forall (telegram : list (string * outgoing) -> string -> outgoing -> bool)
         (now : DateTime.datetime) (w : world),
    (check_reminders telegram now w = (w, Return tt)
     <-> (forall r, In r (Store.rows (db w)) -> Store.due now r = false))
    /\ (forall r, In r (Store.rows (db w)) -> Store.due now r = true ->
         exists x l more,
           Store.get_due_reminders now (db w) = x :: l
           /\ outbox (fst (check_reminders telegram now w))
              = (outbox w ++ attempt x :: more)%list).
Proof.
  intros telegram now w.
  assert (forall r, In r (Store.rows (db w)) -> Store.due now r = true ->
          exists x l more,
            Store.get_due_reminders now (db w) = x :: l
            /\ outbox (fst (check_reminders telegram now w))
               = (outbox w ++ attempt x :: more)%list) as Hsent.
  { intros r Hr Hd.
    destruct (Store.get_due_reminders now (db w)) as [|x l] eqn:Hdue.
    - assert (In (Store.selected r) (Store.get_due_reminders now (db w))) as Hin
          by (apply in_map, filter_In; now split).
      now rewrite Hdue in Hin.
    - destruct (scan_outbox telegram now w x l Hdue) as [more Hout].
      exists x, l, more. split; [reflexivity | exact Hout]. }
  split; [split|exact Hsent].
  - intros Hscan r Hr.
    destruct (Store.due now r) eqn:Hd; [|reflexivity]. exfalso.
    destruct (Hsent r Hr Hd) as [x [l [more [_ Hout]]]].
    rewrite Hscan in Hout. cbn [fst] in Hout.
    apply (f_equal (@List.length _)) in Hout.
    rewrite length_app in Hout. simpl in Hout. lia.
  - intros Hnone. rewrite check_reminders_unfold.
    unfold Store.get_due_reminders. rewrite (filter_none _ _ Hnone).
    reflexivity.
Qed.

Lemma scan_with_nothing_due_witness :
  check_reminders Scenario.telegram_up (Scenario.T0_plus 9)
    (mkworld Scenario.two_due [] [])
  = (mkworld Scenario.two_due [] [], Return tt)
  /\ exists x l more,
       Store.get_due_reminders (Scenario.T0_plus 10) Scenario.two_due = x :: l
       /\ outbox (fst (check_reminders Scenario.telegram_down
                         (Scenario.T0_plus 10)
                         (mkworld Scenario.two_due [] [])))
          = ([] ++ attempt x :: more)%list.
Proof.
  split.
  - apply (scan_with_nothing_due Scenario.telegram_up (Scenario.T0_plus 9)
             (mkworld Scenario.two_due [] [])).
    simpl. intros r [<-|[<-|[]]]; reflexivity.
  - apply (proj2 (scan_with_nothing_due Scenario.telegram_down
                    (Scenario.T0_plus 10) (mkworld Scenario.two_due [] []))
             (Store.mkrow 1 "42" "drink water" "2025-06-01 12:00:10")).
    + simpl. left. reflexivity.
    + reflexivity.
Defined.

(** X14. No reminder is notified twice once its scan went through: after
    a scan that returned normally, a second scan at the same instant
    sends nothing and changes nothing, whatever Telegram would do. *)
Theorem second_scan_is_silent :
  forall (telegram telegram' : list (string * outgoing) -> string -> outgoing -> bool)
         (now : DateTime.datetime) (w : world),
    snd (check_reminders telegram now w) = Return tt ->
    check_reminders telegram' now (fst (check_reminders telegram now w))
    = (fst (check_reminders telegram now w), Return tt).
Proof.
  intros telegram telegram' now w Hret.
  rewrite check_reminders_unfold in Hret.
  rewrite (check_reminders_unfold telegram now w).
  rewrite (dispatch_returns _ _ _ Hret). cbn [fst].
  rewrite check_reminders_unfold. cbn [db].
  unfold Store.get_due_reminders at 1. rewrite delete_all_rows.
  rewrite filter_none; [reflexivity|].
  intros r Hr. apply filter_In in Hr. destruct Hr as [Hr Hkept].
  destruct (Store.due now r) eqn:Hd; [|reflexivity].
  apply negb_true_iff, not_true_iff_false in Hkept. destruct Hkept.
  apply existsb_id_iff. unfold Store.get_due_reminders.
  rewrite fetched_id_selected. apply in_map, filter_In. now split.
Qed.

Lemma second_scan_is_silent_witness :
  check_reminders Scenario.telegram_down (Scenario.T0_plus 11)
    (fst (check_reminders Scenario.telegram_up (Scenario.T0_plus 11)
            (mkworld Scenario.two_due [] [])))
  = (fst (check_reminders Scenario.telegram_up (Scenario.T0_plus 11)
            (mkworld Scenario.two_due [] [])), Return tt).
Proof.
  apply (second_scan_is_silent Scenario.telegram_up Scenario.telegram_down
           (Scenario.T0_plus 11) (mkworld Scenario.two_due [] [])).
  reflexivity.
Defined.

(** ** Inserting, deleting and querying *)

(** X15. Insert and query: once a reminder for the instant [d], of
    year 1000 or later, is inserted, the due query at a clock reading
    [now], of year 1000 or later too, answers what it answered before,
    followed by the new reminder under its new id when [d], cut to the
    second, is not after [now], and by nothing otherwise. *)
Theorem insert_then_query :
  forall (chat message : string) (d now : DateTime.datetime)
         (t t' : Store.table),
    DateTime.valid d = true -> DateTime.valid now = true ->
    1000 <= DateTime.year d -> 1000 <= DateTime.year now ->
    Store.add_reminder chat message (DateTime.strftime d) t = Return t' ->
    Store.get_due_reminders now t'
    = (Store.get_due_reminders now t
       ++ (if DateTime.leb (DateTime.whole_second d) now
           then [(Store.seq t', chat, message)] else []))%list.
Proof.
  intros chat message d now t t' Hd Hnow _ _ Hadd.
  apply add_reminder_inv in Hadd. destruct Hadd as [_ Hrows].
  unfold Store.get_due_reminders. rewrite Hrows, filter_app, map_app.
  f_equal. cbn [filter].
  rewrite (due_strftime d now
             (Store.mkrow (Store.seq t') chat message (DateTime.strftime d))
             Hd Hnow eq_refl).
  now destruct (DateTime.leb (DateTime.whole_second d) now).
Qed.

Lemma insert_then_query_witness :
  Store.get_due_reminders (Scenario.T0_plus 11)
    (Store.mktable
       (Store.rows Scenario.two_due
        ++ [Store.mkrow 3 "44" "walk"
              (DateTime.strftime (Scenario.T0_plus 11))])%list 3)
  = (Store.get_due_reminders (Scenario.T0_plus 11) Scenario.two_due
     ++ (if DateTime.leb (DateTime.whole_second (Scenario.T0_plus 11))
                         (Scenario.T0_plus 11)
         then [(3, "44", "walk")] else []))%list.
Proof.
  apply (insert_then_query "44" "walk" (Scenario.T0_plus 11)
           (Scenario.T0_plus 11) Scenario.two_due
           (Store.mktable
              (Store.rows Scenario.two_due
               ++ [Store.mkrow 3 "44" "walk"
                     (DateTime.strftime (Scenario.T0_plus 11))])%list 3)).
  - reflexivity.
  - reflexivity.
  - simpl. lia.
  - simpl. lia.
  - reflexivity.
Defined.

(** X16. Delete and query: after [delete_reminder i] the due query
    answers what it answered before without the entries of id [i]; a
    deleted id is never fetched again. *)
Theorem delete_then_query :
  forall (i : Z) (now : DateTime.datetime) (t : Store.table),
    Store.get_due_reminders now (Store.delete_reminder i t)
    = filter (fun x => negb (fetched_id x =? i))
             (Store.get_due_reminders now t)
    /\ ~ In i (map fetched_id
                 (Store.get_due_reminders now (Store.delete_reminder i t))).
Proof.
  intros i now t.
  assert (Store.get_due_reminders now (Store.delete_reminder i t)
          = filter (fun x => negb (fetched_id x =? i))
                   (Store.get_due_reminders now t)) as E.
  { unfold Store.get_due_reminders, Store.delete_reminder. cbn [Store.rows].
    induction (Store.rows t) as [|r rs IH]; [reflexivity|].
    simpl. destruct (Store.id r =? i) eqn:Ei, (Store.due now r) eqn:Ed;
      simpl; change (fetched_id (Store.selected r)) with (Store.id r);
      rewrite ?Ei, ?Ed; simpl; now rewrite IH. }
  split; [exact E|].
  rewrite E. intros Hin. apply in_map_iff in Hin.
  destruct Hin as [x [Hx Hin]]. apply filter_In in Hin.
  destruct Hin as [_ Hne]. rewrite Hx, Z.eqb_refl in Hne. discriminate.
Qed.

(** X17. Deletions commute: the table after deleting two ids does not
    depend on the order of the two deletions. *)
Theorem deletions_commute :
  forall (i j : Z) (t : Store.table),
    Store.delete_reminder i (Store.delete_reminder j t)
    = Store.delete_reminder j (Store.delete_reminder i t).
Proof.
  intros i j t. unfold Store.delete_reminder. cbn [Store.rows Store.seq].
  f_equal. induction (Store.rows t) as [|r rs IH]; [reflexivity|].
  cbn [filter].
  destruct (Store.id r =? j) eqn:Ej, (Store.id r =? i) eqn:Ei;
    cbn [negb filter]; rewrite ?Ei, ?Ej; cbn [negb]; now rewrite IH.
Qed.

(** X18. Insert and delete: deleting the reminder just inserted gives
    back the rows the table had, in their order; only the id sequence
    remembers the insert, so that the id is not given out again. *)
Theorem insert_then_delete :
  forall (chat message time : string) (t t' : Store.table),
    Store.add_reminder chat message time t = Return t' ->
    Store.rows (Store.delete_reminder (Store.seq t') t') = Store.rows t
    /\ Store.seq (Store.delete_reminder (Store.seq t') t') = Store.seq t'
    /\ Store.seq t < Store.seq t'.
Proof.
  intros chat message time t t' Hadd.
  apply add_reminder_inv in Hadd. destruct Hadd as [Hnext Hrows].
  apply next_rowid_above in Hnext. destruct Hnext as [Hseq [_ Habove]].
  split; [|split; [reflexivity | exact Hseq]].
  cbn [Store.delete_reminder Store.rows]. rewrite Hrows, filter_app.
  cbn [filter Store.id]. rewrite Z.eqb_refl. cbn [negb].
  rewrite app_nil_r. apply filter_all.
  intros r Hr. apply negb_true_iff, Z.eqb_neq.
  specialize (Habove r Hr). lia.
Qed.

Lemma insert_then_delete_witness :
  Store.rows
    (Store.delete_reminder 3
       (Store.mktable
          (Store.rows Scenario.two_due
           ++ [Store.mkrow 3 "44" "walk" "2025-06-01 12:00:40"])%list 3))
  = Store.rows Scenario.two_due.
Proof.
  apply (insert_then_delete "44" "walk" "2025-06-01 12:00:40" Scenario.two_due
           (Store.mktable
              (Store.rows Scenario.two_due
               ++ [Store.mkrow 3 "44" "walk" "2025-06-01 12:00:40"])%list 3)).
  reflexivity.
Defined.

(** ** What the pattern extracts *)

Lemma exists_leftmost (text : string) :
  (exists pre ds u, occurrence pre ds u text) ->
  exists pre ds u, leftmost pre ds u text.
Proof.
  induction text as [|c text IH]; intros [pre [ds [u Hocc]]].
  - destruct Hocc as [kw [rest [H _]]].
    destruct pre; [destruct kw|]; discriminate H.
  - destruct (Re.match_at (String c text)) as [[g1 g2]|] eqn:E.
    + apply match_at_sound in E. destruct E as [ds' [u' E]].
      exists EmptyString, ds', u'. split; [exact E|]. simpl. intros; lia.
    + assert (forall p ds' u', occurrence p ds' u' (String c text) ->
                               exists p', p = String c p'
                                          /\ occurrence p' ds' u' text) as Htail.
      { intros [|c' p'] ds' u' H.
        - destruct H as [kw [rest [H [Hkw [Hne [Hds Hu]]]]]].
          change (EmptyString ++ kw ++ " " ++ ds' ++ " " ++ u' ++ rest)%string
            with (kw ++ " " ++ ds' ++ " " ++ u' ++ rest)%string in H.
          rewrite H, match_at_complete in E by assumption. discriminate.
        - assert (c' = c) as ->
              by (destruct H as [kw [rest [H _]]]; simpl in H; congruence).
          exists p'. split; [reflexivity|]. now apply (occurrence_tail c). }
      destruct (Htail _ _ _ Hocc) as [pre' [-> Hocc']].
      destruct (IH (ex_intro _ pre' (ex_intro _ ds (ex_intro _ u Hocc'))))
        as [p [ds0 [u0 [Hp Hmin]]]].
      exists (String c p), ds0, u0. split; [now apply occurrence_tail|].
      intros q ds' u' Hq. destruct (Htail _ _ _ Hq) as [q' [-> Hq']].
      simpl. apply le_n_S. now apply (Hmin q' ds' u').
Qed.

(** X19. What [re.search] with the pattern of the fallback returns on a
    text of characters below U+0100: the digits and the unit word (second, minute or hour in any case, without
    a plural s) of the leftmost place where "in", one space, a run of
    digits, one space and a unit word follow each other; and nothing when
    there is no such place. *)
Theorem search_finds_leftmost_phrase :
  forall text : string,
    (forall g1 g2,
        Re.search text = Some (g1, g2) <-> exists pre, leftmost pre g1 g2 text)
    /\ (Re.search text = None <-> forall pre ds u, ~ occurrence pre ds u text).
Proof.
  intros text. split; [|apply search_none_iff].
  intros g1 g2. split.
  - intros E. destruct (search_sound _ _ _ E) as [pre [ds [u Hocc]]].
    destruct (exists_leftmost text
                (ex_intro _ pre (ex_intro _ ds (ex_intro _ u Hocc))))
      as [p [ds0 [u0 Hleft]]].
    pose proof (search_leftmost _ _ _ _ Hleft) as E'.
    rewrite E in E'. injection E' as -> ->. now exists p.
  - intros [pre Hleft]. now apply (search_leftmost pre).
Qed.

Lemma search_finds_leftmost_phrase_witness :
  Re.search "within 2 Hours or in 10 minutes" = Some ("2", "Hour")
  /\ Re.search "in  5 minutes" = None.
Proof.
  destruct (search_finds_leftmost_phrase "within 2 Hours or in 10 minutes")
    as [H _].
  split; [|reflexivity].
  apply H. exists "with". apply leftmost_intro.
  - exists "in", "s or in 10 minutes". repeat split; simpl; auto. discriminate.
  - intros k Hk. simpl in Hk. do 4 (destruct k as [|k]; [reflexivity|]). lia.
Defined.

(** ** Comparison of date-times and elapsed time *)

Section Elapsed.

Import DateTime.

Lemma days_before_year_step (y : Z) :
  days_before_year (y + 1)
  = days_before_year y + 365 + (if is_leap y then 1 else 0).
Proof.
  unfold days_before_year.
  destruct (is_leap y) eqn:E.
  - apply is_leap_iff in E. divlia.
  - assert (~ (y mod 4 = 0 /\ (y mod 100 <> 0 \/ y mod 400 = 0))) as E'
        by (rewrite <- is_leap_iff; congruence).
    divlia.
Qed.

Lemma days_before_year_mono (y y' : Z) :
  y <= y' -> days_before_year y <= days_before_year y'.
Proof. intros H. unfold days_before_year. divlia. Qed.

Lemma day_of_year_bound (y m d : Z) :
  1 <= m <= 12 -> 1 <= d <= days_in_month y m ->
  1 <= days_before_month y m + d <= 365 + (if is_leap y then 1 else 0).
Proof.
  intros Hm. unfold days_before_month, days_in_month.
  assert (m = 1 \/ m = 2 \/ m = 3 \/ m = 4 \/ m = 5 \/ m = 6 \/ m = 7
          \/ m = 8 \/ m = 9 \/ m = 10 \/ m = 11 \/ m = 12) as H by lia.
  repeat (destruct H as [H|H]); subst m; destruct (is_leap y); table; lia.
Qed.

Lemma month_order (y m m' d : Z) :
  1 <= m -> m < m' -> m' <= 12 -> 1 <= d <= days_in_month y m ->
  days_before_month y m + d <= days_before_month y m'.
Proof.
  intros H1 H2 H3. unfold days_before_month, days_in_month.
  assert (m = 1 \/ m = 2 \/ m = 3 \/ m = 4 \/ m = 5 \/ m = 6 \/ m = 7
          \/ m = 8 \/ m = 9 \/ m = 10 \/ m = 11) as H by lia.
  assert (m' = 2 \/ m' = 3 \/ m' = 4 \/ m' = 5 \/ m' = 6 \/ m' = 7
          \/ m' = 8 \/ m' = 9 \/ m' = 10 \/ m' = 11 \/ m' = 12) as H' by lia.
  repeat (destruct H as [H|H]); subst m;
    repeat (destruct H' as [H'|H']); subst m'; try lia;
    destruct (is_leap y); table; lia.
Qed.

Lemma compare_ymd2ord (y m d y' m' d' : Z) :
  1 <= m <= 12 -> 1 <= d <= days_in_month y m ->
  1 <= m' <= 12 -> 1 <= d' <= days_in_month y' m' ->
  lex (y ?= y') (lex (m ?= m') (d ?= d'))
  = (ymd2ord y m d ?= ymd2ord y' m' d').
Proof.
  intros Hm Hd Hm' Hd'. unfold ymd2ord. symmetry.
  pose proof (day_of_year_bound y m d Hm Hd) as Hb.
  pose proof (day_of_year_bound y' m' d' Hm' Hd') as Hb'.
  destruct (Z.compare_spec y y') as [<-|Hy|Hy]; cbn [lex].
  - destruct (Z.compare_spec m m') as [<-|Hmm|Hmm]; cbn [lex].
    + destruct (Z.compare_spec d d');
        [apply Z.compare_eq_iff | apply Z.compare_lt_iff | apply Z.compare_gt_iff];
        lia.
    + apply Z.compare_lt_iff.
      pose proof (month_order y m m' d). lia.
    + apply Z.compare_gt_iff.
      pose proof (month_order y m' m d'). lia.
  - apply Z.compare_lt_iff.
    pose proof (days_before_year_step y).
    pose proof (days_before_year_mono (y + 1) y'). lia.
  - apply Z.compare_gt_iff.
    pose proof (days_before_year_step y').
    pose proof (days_before_year_mono (y' + 1) y). lia.
Qed.

Lemma lex_assoc (a b c : comparison) : lex (lex a b) c = lex a (lex b c).
Proof. now destruct a. Qed.

Lemma compare_shift (x y x' y' : Z) :
  x' - x = y' - y -> (x ?= y) = (x' ?= y').
Proof.
  intros H. destruct (Z.compare_spec x y); symmetry;
    [apply Z.compare_eq_iff | apply Z.compare_lt_iff | apply Z.compare_gt_iff];
    lia.
Qed.

Lemma cmp_elapsed (a b : datetime) :
  valid a = true -> valid b = true ->
  cmp a b = (total_microseconds a ?= total_microseconds b).
Proof.
  intros Ha Hb.
  apply valid_fields in Ha, Hb.
  destruct Ha as [_ [Hm [Hd [Hh [Hmi [Hs Hu]]]]]].
  destruct Hb as [_ [Hm' [Hd' [Hh' [Hmi' [Hs' Hu']]]]]].
  unfold cmp.
  rewrite <- (lex_assoc (month a ?= month b)), <- lex_assoc.
  rewrite compare_ymd2ord by assumption.
  rewrite (lex_radix 1000000) by assumption.
  rewrite (lex_radix 60000000) by lia.
  rewrite (lex_radix 3600000000) by lia.
  rewrite (lex_radix 86400000000) by lia.
  apply compare_shift.
  unfold total_microseconds, total_seconds, toordinal. lia.
Qed.

Lemma leb_elapsed (a b : datetime) :
  valid a = true -> valid b = true ->
  leb a b = true <-> total_microseconds a <= total_microseconds b.
Proof.
  intros Ha Hb. unfold leb. rewrite cmp_elapsed by assumption.
  unfold Z.le. destruct (_ ?= _); split; congruence.
Qed.

Lemma whole_second_valid (d : datetime) :
  valid d = true -> valid (whole_second d) = true.
Proof.
  unfold valid, whole_second. cbn [year month day hour minute second microsecond].
  rewrite !andb_true_iff. intros H. repeat split; try apply H; reflexivity.
Qed.

(** A stored instant is not after [now] exactly when its second is not
    after the second of [now]. *)
Lemma due_elapsed (d now : datetime) :
  valid d = true -> valid now = true ->
  leb (whole_second d) now = true <-> total_seconds d <= total_seconds now.
Proof.
  intros Hd Hnow.
  rewrite (leb_elapsed _ _ (whole_second_valid d Hd) Hnow).
  unfold total_microseconds.
  change (total_seconds (whole_second d)) with (total_seconds d).
  change (microsecond (whole_second d)) with 0.
  apply valid_fields in Hnow. lia.
Qed.

End Elapsed.

(** ** From the request to the scan *)

(** X20. A reminder asked for "in <N> <unit>" at [now], in a text of
    characters below U+0100 and through the fallback on the pattern, is
    stored under the next rowid, and a scan at [now'] fetches it exactly
    when [N] units have gone by between the second of [now] and the second
    of [now']: never earlier, and at every scan from then on as long as
    it is in the table as stored.  Both clock readings are of year 1000
    or later. *)
Theorem reminder_is_due_when_its_time_has_come :
  forall (gpt : string -> option (string * option string))
         (dateparser_parse : string -> option DateTime.datetime)
         (telegram : list (string * outgoing) -> string -> outgoing -> bool)
         (now now' : DateTime.datetime) (chat text : string) (w : world)
         (pre ds u : string) (n i : Z),
    (forall answer, gpt text = Some answer ->
                    dateparser_parse (fst answer) = None) ->
    leftmost pre ds u text ->
    PyStr.int ds = Return n ->
    DateTime.valid now = true -> DateTime.valid now' = true ->
    1000 <= DateTime.year now -> 1000 <= DateTime.year now' ->
    DateTime.total_seconds now + n * unit_seconds u < END_OF_TIME ->
    Store.next_rowid (db w) = Return i ->
    In i (map fetched_id
            (Store.get_due_reminders now'
               (db (fst (handle_reminder_request gpt dateparser_parse telegram
                           now chat text w)))))
    <-> DateTime.total_seconds now + n * unit_seconds u
        <= DateTime.total_seconds now'.
Proof.
  intros gpt dateparser_parse telegram now now' chat text w pre ds u n i
         Hgpt Hleft Hint Hnow Hnow' _ _ Hrange Hid.
  rewrite handle_reminder_request_unfold.
  rewrite (parse_after_failure _ _ _ _ _ Hgpt).
  rewrite (fallbacks_matched _ _ _ ds u _ (search_leftmost _ _ _ _ Hleft)).
  rewrite Hint.
  destruct Hleft as [[kw [rest [_ [_ [_ [_ Hu]]]]]] _].
  destruct (offset_spec now u n Hnow (int_nonneg _ _ Hint) Hu Hrange)
    as [due [Hdue [Hvalid [Htot _]]]].
  rewrite Hdue. cbv zeta.
  set (message := if PyStr.contains "to" text
                  then PyStr.strip (PyStr.last_item (PyStr.split1 "to" text))
                  else text).
  unfold bind, add_reminder, Store.add_reminder, send_message.
  cbn [db outbox gpt_calls]. rewrite Hid. cbn [db outbox gpt_calls].
  assert (db (fst (if telegram (outbox w) chat (Confirmation due message)
                   then
                     (mkworld
                        (Store.mktable
                           (Store.rows (db w)
                            ++ [Store.mkrow i chat message
                                  (DateTime.strftime due)])%list i)
                        (outbox w ++ [(chat, Confirmation due message)])%list
                        (gpt_calls w ++ [text])%list, Return tt)
                   else
                     (mkworld
                        (Store.mktable
                           (Store.rows (db w)
                            ++ [Store.mkrow i chat message
                                  (DateTime.strftime due)])%list i)
                        (outbox w ++ [(chat, Confirmation due message)])%list
                        (gpt_calls w ++ [text])%list, Raise TelegramError)))
          = Store.mktable
              (Store.rows (db w)
               ++ [Store.mkrow i chat message (DateTime.strftime due)])%list i)
    as -> by (now destruct (telegram _ _ _)).
  apply next_rowid_above in Hid. destruct Hid as [_ [_ Habove]].
  unfold Store.get_due_reminders. cbn [Store.rows].
  rewrite filter_app, map_app. cbn [filter].
  rewrite (due_strftime due now'
             (Store.mkrow i chat message (DateTime.strftime due))
             Hvalid Hnow' eq_refl).
  rewrite <- Htot, <- (due_elapsed due now' Hvalid Hnow').
  rewrite map_app, fetched_id_selected.
  split.
  - intros Hin. apply in_app_or in Hin. destruct Hin as [Hin|Hin].
    + apply in_map_iff in Hin. destruct Hin as [r [Hsel Hr]].
      apply filter_In in Hr. destruct Hr as [Hr _].
      specialize (Habove r Hr). lia.
    + destruct (DateTime.leb (DateTime.whole_second due) now');
        [reflexivity | contradiction].
  - intros ->. apply in_or_app. right. left. reflexivity.
Qed.

Lemma reminder_is_due_when_its_time_has_come_witness :
  In 1 (map fetched_id
          (Store.get_due_reminders (Scenario.T0_plus 11)
             (db (fst (handle_reminder_request Scenario.gpt_down
                         Scenario.no_date Scenario.telegram_up Scenario.T0
                         "42" "remind me in 10 seconds to drink water"
                         Scenario.fresh)))))
  <-> DateTime.total_seconds Scenario.T0 + 10 * unit_seconds "second"
      <= DateTime.total_seconds (Scenario.T0_plus 11).
Proof.
  apply (reminder_is_due_when_its_time_has_come Scenario.gpt_down
           Scenario.no_date Scenario.telegram_up Scenario.T0
           (Scenario.T0_plus 11) "42"
           "remind me in 10 seconds to drink water" Scenario.fresh
           "remind me " "10" "second" 10 1).
  - intros answer H. discriminate H.
  - apply leftmost_intro.
    + exists "in", "s to drink water". repeat split; simpl; auto. discriminate.
    + intros k Hk. simpl in Hk.
      do 10 (destruct k as [|k]; [reflexivity|]). lia.
  - reflexivity.
  - reflexivity.
  - reflexivity.
  - simpl. lia.
  - simpl. lia.
  - vm_compute. reflexivity.
  - reflexivity.
Defined.
